(** * transport-bot: the trip lifecycle, pricing and review logic

    A shallow embedding of [utils.py], [handlers.py], [database.py] and the
    callback routing of [bot.py], with the properties the specification
    asks of them stated and proved, or refuted by example.

    Conventions of the embedding.
    - Python [int] is [Z]; SQLite INTEGER columns are [Z], nullable columns
      are [option].  The REAL columns [price], [waiting_charge] and
      [final_price] only ever receive integer values from the handlers
      (multiples of 50, a class minimum, a waiting charge), so they are [Z];
      the REAL column [rating] receives [AVG(rating)] and is an exact
      rational [Q] kept in reduced form.  The one [float] the pricing
      computes, [price / 50], is modelled as the double it is.
    - Python [str] is [string].
    - A table with a primary key is a [gmap] from the key to the row; the
      [reviews] and [logs] tables (auto-increment key) are lists in insertion
      order.
    - [datetime.now()] is an explicit argument [now] of each handler.
    - A handler is a function from the database (and, where it uses it, the
      per-user session [context.user_data]) to the reply it shows and the
      new database.  Messages sent to other chats are fire-and-forget in the
      source (wrapped in [try/except]) and are not part of the state. *)

From Stdlib Require Import ZArith QArith Lia List Bool Ascii String.
From stdpp Require Import gmap strings list fin_maps.
Import ListNotations.

Local Open Scope Z_scope.

(** ** utils.py: the pricing engine *)

Module Pricing.

(** An entry of [config.CAR_CLASSES]: a dict with the per-kilometre rate
    under ['base_price'] and the class minimum under ['min_price'].  A key
    the dict lacks is [None]. *)
Record CarInfo := mkCarInfo { base_price : option Z; min_price : option Z }.

(** Python truthiness of an optional number: [None] and [0] are falsy. *)
Definition truthy (o : option Z) : bool :=
  match o with
  | None => false
  | Some v => negb (v =? 0)
  end.

(** The integer nearest to the rational [n / d], for a positive [d]; of
    two integers equally near, the even one. *)
Definition round_half_even (n d : Z) : Z :=
  let q := n / d in
  let r := n mod d in
  if 2 * r <? d then q
  else if d <? 2 * r then q + 1
  else if Z.even q then q else q + 1.

(** A finite [float] is kept as a pair [(m, e)] that stands for
    [m * 2 ^ e], with [m] of at most 53 bits.  The quotient [a / (b * 2 ^ e)]
    as a fraction of integers: *)
Definition scaled_num (a e : Z) : Z := if e <? 0 then a * 2 ^ (- e) else a.
Definition scaled_den (b e : Z) : Z := if e <? 0 then b else b * 2 ^ e.

(** [a / b] for two [int]s, [b] positive: the double nearest to the exact
    quotient, ties to the even mantissa; [None] is the [OverflowError] of a
    quotient beyond the range of a double.  The exponent [e] is the one
    that puts the scaled quotient between [2 ^ 52] and [2 ^ 53], and not
    below that of the subnormal numbers. *)
Definition true_divide (a b : Z) : option (Z * Z) :=
  if a =? 0 then Some (0, 0)
  else
    let e1 := Z.log2 (Z.abs a) - Z.log2 b - 53 in
    let e2 :=
      if 2 ^ 53 * scaled_den b e1 <=? scaled_num (Z.abs a) e1 then e1 + 1 else e1 in
    let e := Z.max e2 (-1074) in
    let m := round_half_even (scaled_num a e) (scaled_den b e) in
    if (0 <=? e) && (2 ^ 1024 <=? Z.abs m * 2 ^ e) then None else Some (m, e).

(** [round(x)] for a [float]: the nearest [int], ties to even. *)
Definition py_round (x : Z * Z) : Z :=
  if x.2 <? 0 then round_half_even x.1 (2 ^ (- x.2)) else x.1 * 2 ^ x.2.

(** [round(p / d)] for an integer [p] and a positive integer [d]: Python
    divides in floating point and rounds the double. *)
Definition py_round_div (p d : Z) : option Z := py_round <$> true_divide p d.

(** [calculate_price], utils.py 63-85.  The two configuration tables are
    arguments: [config.py] is not part of the sources.  Whatever is raised
    inside the [try] ends in the [except] branch and its fixed answer
    [(500, 400)]: the [KeyError] of a table without ['economy'] (the
    default of the class lookup, [CAR_CLASSES['economy']], is evaluated
    before [get] is called, so it is raised whatever the class is), the
    [KeyError] of an entry without one of its two keys, and the
    [OverflowError] of [price / 50]. *)
Definition calculate_price
    (DISTANCES : gmap (string * string) Z) (CAR_CLASSES : gmap string CarInfo)
    (from_city to_city car_class : string) : Z * Z :=
  let distance :=
    if truthy (DISTANCES !! (from_city, to_city))
    then default 0 (DISTANCES !! (from_city, to_city))
    else default 400 (DISTANCES !! (to_city, from_city)) in
  let priced : option Z :=
    economy ← CAR_CLASSES !! "economy";
    let car_info := default economy (CAR_CLASSES !! car_class) in
    base_km ← base_price car_info;
    floor ← min_price car_info;
    let price := 60 + distance * base_km in
    units ← py_round_div price 50;
    Some (Z.max floor (units * 50)) in
  match priced with
  | Some p => (p, distance)
  | None => (500, 400)
  end.

(** [calculate_waiting_charge], utils.py 87-96. *)
Definition calculate_waiting_charge (minutes : Z) : Z :=
  if minutes <=? 2 then 0
  else if minutes <=? 5 then (minutes - 2) * 3
  else if minutes <=? 7 then 3 * 3 + (minutes - 5) * 4
  else 3 * 3 + 2 * 4 + (minutes - 7) * 5.

(** The rate that applies to the minute that ends at [m]: the tiers of the
    table shown by [start_waiting] (free up to 2, then 3, 4 and 5 a
    minute). *)
Definition minute_rate (m : Z) : Z :=
  if m <=? 2 then 0 else if m <=? 5 then 3 else if m <=? 7 then 4 else 5.

(** The distance [calculate_price] works with: its first four lines. *)
Definition looked_up (T : gmap (string * string) Z) (a b : string) : Z :=
  if truthy (T !! (a, b)) then default 0 (T !! (a, b)) else default 400 (T !! (b, a)).

(** A pair of cities is stored in the table when one of the two orders
    is. *)
Definition pair_present (DISTANCES : gmap (string * string) Z) (a b : string) : Prop :=
  is_Some (DISTANCES !! (a, b)) ∨ is_Some (DISTANCES !! (b, a)).

(** The table is usable as an undirected one at [(a, b)]: no stored
    distance of the pair is zero (which the lookup reads as a missing
    entry), and when both orders are stored they agree. *)
Definition pair_undirected (DISTANCES : gmap (string * string) Z) (a b : string) : Prop :=
  DISTANCES !! (a, b) ≠ Some 0 ∧ DISTANCES !! (b, a) ≠ Some 0 ∧
  (∀ d1 d2, DISTANCES !! (a, b) = Some d1 → DISTANCES !! (b, a) = Some d2 → d1 = d2).

(** A table of one road and one class, for the examples. *)
Definition one_road (d : Z) : gmap (string * string) Z := {[ ("Kazan", "Samara") := d ]}.
Definition one_class : gmap string CarInfo :=
  {[ "economy" := mkCarInfo (Some 10) (Some 300) ]}.

End Pricing.

(** ** database.py: the tables *)

Module Store.

(** [datetime.now().isoformat()], kept as the instant in seconds. *)
Definition Timestamp := Z.

(** The values of the [status] column of [trips]. *)
Inductive TripStatus := searching | accepted | started | completed | cancelled.

#[global] Instance TripStatus_eq_dec : EqDecision TripStatus.
Proof. solve_decision. Defined.

(** A row of [users] (columns the handlers below read or write). *)
Record User := mkUser {
  first_name : string;
  phone : option string;          (* Fernet token, NULL until set *)
  role : string;                  (* DEFAULT 'passenger' *)
  is_blocked : Z;
  rating : option Q;              (* REAL DEFAULT 5.0 *)
  trips_count : Z;                (* DEFAULT 0 *)
  training_completed : Z;
  last_active : option Timestamp  (* written by every [/start] *)
}.

(** A row of [drivers]; [verified] is 0 (pending), 1 (verified) or -1
    (rejected), [online_status] is 0 or 1. *)
Record Driver := mkDriver {
  full_name : string;
  driver_phone : option string;
  car_model : string;
  car_number : string;
  driver_car_class : string;      (* DEFAULT 'economy' *)
  experience : Z;
  verified : Z;                   (* DEFAULT 0 *)
  verified_by : option Z;
  verified_at : option Timestamp;
  online_status : Z               (* DEFAULT 0 *)
}.

(** A row of [trips]. *)
Record Trip := mkTrip {
  passenger_id : Z;
  driver_id : option Z;
  from_city : string;
  to_city : string;
  price : Z;
  car_class : string;             (* DEFAULT 'economy' *)
  status : TripStatus;
  created_at : Timestamp;
  accepted_at : option Timestamp;
  started_at : option Timestamp;
  completed_at : option Timestamp;
  cancelled_by : option Z;
  cancel_reason : option string;
  waiting_minutes : option Z;     (* DEFAULT 0 *)
  waiting_charge : option Z;      (* DEFAULT 0 *)
  final_price : option Z
}.

(** A row of [reviews]; the table declares no uniqueness on
    [(trip_id, from_user)]. *)
Record Review := mkReview {
  review_trip_id : string;
  from_user : Z;
  to_user : Z;
  review_rating : Z;              (* CHECK (rating >= 1 AND rating <= 5) *)
  comment : string;
  review_created_at : Timestamp
}.

(** A row of [logs], as [log_action] writes it (the free-text [details]
    column repeats values of the statement logged and is left out). *)
Record LogRow := mkLog {
  log_user : Z;
  log_action_name : string;
  log_created_at : Timestamp
}.

Record DB := mkDB {
  users : gmap Z User;
  drivers : gmap Z Driver;
  trips : gmap string Trip;
  reviews : list Review;
  logs : list LogRow
}.

Definition empty_db : DB := mkDB ∅ ∅ ∅ [] [].

(** *** Field updates *)

Definition set_users (f : gmap Z User → gmap Z User) (db : DB) : DB :=
  mkDB (f (users db)) (drivers db) (trips db) (reviews db) (logs db).
Definition set_drivers (f : gmap Z Driver → gmap Z Driver) (db : DB) : DB :=
  mkDB (users db) (f (drivers db)) (trips db) (reviews db) (logs db).
Definition set_trips (f : gmap string Trip → gmap string Trip) (db : DB) : DB :=
  mkDB (users db) (drivers db) (f (trips db)) (reviews db) (logs db).
Definition set_reviews (f : list Review → list Review) (db : DB) : DB :=
  mkDB (users db) (drivers db) (trips db) (f (reviews db)) (logs db).
Definition set_logs (f : list LogRow → list LogRow) (db : DB) : DB :=
  mkDB (users db) (drivers db) (trips db) (reviews db) (f (logs db)).

(** [SET driver_id = ?, status = 'accepted', accepted_at = ?] *)
Definition trip_set_accepted (d : Z) (now : Timestamp) (t : Trip) : Trip :=
  mkTrip (passenger_id t) (Some d) (from_city t) (to_city t) (price t) (car_class t)
         accepted (created_at t) (Some now) (started_at t) (completed_at t)
         (cancelled_by t) (cancel_reason t) (waiting_minutes t) (waiting_charge t)
         (final_price t).

(** [SET status = 'started', started_at = ?] *)
Definition trip_set_started (now : Timestamp) (t : Trip) : Trip :=
  mkTrip (passenger_id t) (driver_id t) (from_city t) (to_city t) (price t) (car_class t)
         started (created_at t) (accepted_at t) (Some now) (completed_at t)
         (cancelled_by t) (cancel_reason t) (waiting_minutes t) (waiting_charge t)
         (final_price t).

(** [SET waiting_minutes = ?, waiting_charge = ?] *)
Definition trip_set_waiting (minutes charge : Z) (t : Trip) : Trip :=
  mkTrip (passenger_id t) (driver_id t) (from_city t) (to_city t) (price t) (car_class t)
         (status t) (created_at t) (accepted_at t) (started_at t) (completed_at t)
         (cancelled_by t) (cancel_reason t) (Some minutes) (Some charge)
         (final_price t).

(** [SET status = 'completed', completed_at = ?, final_price = ?] *)
Definition trip_set_completed (now : Timestamp) (final : Z) (t : Trip) : Trip :=
  mkTrip (passenger_id t) (driver_id t) (from_city t) (to_city t) (price t) (car_class t)
         completed (created_at t) (accepted_at t) (started_at t) (Some now)
         (cancelled_by t) (cancel_reason t) (waiting_minutes t) (waiting_charge t)
         (Some final).

(** [SET trips_count = trips_count + 1] *)
Definition user_incr_trips (u : User) : User :=
  mkUser (first_name u) (phone u) (role u) (is_blocked u) (rating u)
         (trips_count u + 1) (training_completed u) (last_active u).

(** [SET rating = ?] *)
Definition user_set_rating (r : option Q) (u : User) : User :=
  mkUser (first_name u) (phone u) (role u) (is_blocked u) r
         (trips_count u) (training_completed u) (last_active u).

(** [SET role = 'driver'] *)
Definition user_set_role (r : string) (u : User) : User :=
  mkUser (first_name u) (phone u) r (is_blocked u) (rating u)
         (trips_count u) (training_completed u) (last_active u).

(** [SET training_completed = 1] *)
Definition user_set_trained (u : User) : User :=
  mkUser (first_name u) (phone u) (role u) (is_blocked u) (rating u)
         (trips_count u) 1 (last_active u).

(** [SET last_active = ?] *)
Definition user_set_active (now : Timestamp) (u : User) : User :=
  mkUser (first_name u) (phone u) (role u) (is_blocked u) (rating u)
         (trips_count u) (training_completed u) (Some now).

(** [SET verified = ?, verified_by = ?, verified_at = ?] *)
Definition driver_set_verified (v admin : Z) (now : Timestamp) (d : Driver) : Driver :=
  mkDriver (full_name d) (driver_phone d) (car_model d) (car_number d)
           (driver_car_class d) (experience d) v (Some admin) (Some now)
           (online_status d).

End Store.

(** ** database.py, handlers.py: the SQL statements the handlers issue

    Every [db.execute] opens its own connection, runs one statement and
    commits; a statement that violates a constraint (connections are opened
    with [PRAGMA foreign_keys = ON]) raises inside [execute], which logs the
    error and returns, so the statement changes nothing and the handler goes
    on. *)

Module Sql.
Import Store.

(** [SELECT * FROM users WHERE user_id = ?] *)
Definition get_user (db : DB) (user_id : Z) : option User := users db !! user_id.

(** [SELECT * FROM drivers WHERE user_id = ?] *)
Definition get_driver (db : DB) (user_id : Z) : option Driver := drivers db !! user_id.

(** [SELECT * FROM trips WHERE trip_id = ?] *)
Definition get_trip (db : DB) (trip_id : string) : option Trip := trips db !! trip_id.

(** [SELECT * FROM trips WHERE trip_id = ? AND status = st] *)
Definition get_trip_in (st : TripStatus) (db : DB) (trip_id : string) : option Trip :=
  match trips db !! trip_id with
  | Some t => if decide (status t = st) then Some t else None
  | None => None
  end.

(** [INSERT INTO logs (user_id, action, details, created_at)], from
    [Database.log_action]. *)
Definition log_action (now : Timestamp) (user_id : Z) (action : string) (db : DB) : DB :=
  set_logs (λ l, l ++ [mkLog user_id action now]) db.

(** [UPDATE trips SET driver_id = ?, status = ?, accepted_at = ?
    WHERE trip_id = ?], handlers.py 528-533.  The condition names the trip
    only.  [driver_id] references [users]: binding an id with no user row
    fails. *)
Definition update_trip_accepted
    (now : Timestamp) (driver : Z) (trip_id : string) (db : DB) : DB :=
  match users db !! driver with
  | Some _ => set_trips (alter (trip_set_accepted driver now) trip_id) db
  | None => db
  end.

(** [UPDATE trips SET status = ?, started_at = ? WHERE trip_id = ?],
    handlers.py 611-614. *)
Definition update_trip_started (now : Timestamp) (trip_id : string) (db : DB) : DB :=
  set_trips (alter (trip_set_started now) trip_id) db.

(** [UPDATE trips SET waiting_minutes = ?, waiting_charge = ?
    WHERE trip_id = ?], handlers.py 682-685. *)
Definition update_trip_waiting (minutes charge : Z) (trip_id : string) (db : DB) : DB :=
  set_trips (alter (trip_set_waiting minutes charge) trip_id) db.

(** [UPDATE trips SET status = ?, completed_at = ?, final_price = ?
    WHERE trip_id = ?], handlers.py 742-747. *)
Definition update_trip_completed
    (now : Timestamp) (final : Z) (trip_id : string) (db : DB) : DB :=
  set_trips (alter (trip_set_completed now final) trip_id) db.

(** [UPDATE users SET trips_count = trips_count + 1 WHERE user_id = ?];
    with a NULL parameter the condition holds for no row. *)
Definition incr_trips_count (uid : option Z) (db : DB) : DB :=
  match uid with
  | Some u => set_users (alter user_incr_trips u) db
  | None => db
  end.

(** [INSERT INTO trips (trip_id, passenger_id, from_city, to_city, price,
    status, created_at)], handlers.py 423-428: the other columns take
    their defaults; [trip_id] is the primary key and [passenger_id]
    references [users]. *)
Definition insert_trip
    (now : Timestamp) (trip_id : string) (passenger : Z)
    (from_c to_c : string) (p : Z) (db : DB) : DB :=
  match trips db !! trip_id, users db !! passenger with
  | None, Some _ =>
      set_trips (insert trip_id
        (mkTrip passenger None from_c to_c p "economy" searching now
                None None None None None (Some 0) (Some 0) None)) db
  | _, _ => db
  end.

(** [INSERT INTO reviews (trip_id, from_user, to_user, rating, comment,
    created_at)], handlers.py 878-883: the three references must exist,
    [to_user] is NOT NULL and the rating passes the CHECK. *)
Definition insert_review
    (now : Timestamp) (trip_id : string) (rater : Z) (ratee : option Z)
    (r : Z) (text : string) (db : DB) : DB :=
  match ratee with
  | None => db
  | Some to =>
      if bool_decide (is_Some (trips db !! trip_id)) &&
         bool_decide (is_Some (users db !! rater)) &&
         bool_decide (is_Some (users db !! to)) &&
         (1 <=? r) && (r <=? 5)
      then set_reviews (λ l, l ++ [mkReview trip_id rater to r text now]) db
      else db
  end.

(** The reviews addressed to a user. *)
Definition reviews_to (to : Z) (rs : list Review) : list Review :=
  filter (λ r, to_user r = to) rs.

Definition sum_ratings (rs : list Review) : Z :=
  foldr (λ r acc, review_rating r + acc) 0 rs.

(** The arithmetic mean of the ratings of a non-empty list of reviews. *)
Definition mean (rs : list Review) : Q :=
  Qred (sum_ratings rs # Pos.of_nat (length rs)).

(** [SELECT AVG(rating) as avg FROM reviews WHERE to_user = ?]: NULL when
    no row qualifies (always so for a NULL parameter). *)
Definition avg_rating (to : option Z) (db : DB) : option Q :=
  match to with
  | None => None
  | Some u =>
      match reviews_to u (reviews db) with
      | [] => None
      | rs => Some (mean rs)
      end
  end.

(** [UPDATE users SET rating = ? WHERE user_id = ?] *)
Definition update_rating (r : option Q) (to : option Z) (db : DB) : DB :=
  match to with
  | Some u => set_users (alter (user_set_rating r) u) db
  | None => db
  end.

(** [INSERT INTO drivers (user_id, full_name, car_model, car_number,
    experience, verified, created_at)] with [verified = 0], handlers.py
    1016-1025; [online_status] takes its default 0.  [user_id] is the
    primary key and references [users]. *)
Definition insert_driver
    (user_id : Z) (name model number : string) (years : Z) (db : DB) : DB :=
  match drivers db !! user_id, users db !! user_id with
  | None, Some _ =>
      set_drivers (insert user_id
        (mkDriver name None model number "economy" years 0 None None 0)) db
  | _, _ => db
  end.

(** [UPDATE users SET role = 'driver' WHERE user_id = ?] *)
Definition update_role_driver (user_id : Z) (db : DB) : DB :=
  set_users (alter (user_set_role "driver") user_id) db.

(** [UPDATE drivers SET verified = v, verified_by = ?, verified_at = ?
    WHERE user_id = ?], handlers.py 1192-1195 ([v = 1]) and 1233-1236
    ([v = -1]). *)
Definition update_driver_verified
    (v : Z) (now : Timestamp) (admin driver : Z) (db : DB) : DB :=
  set_drivers (alter (driver_set_verified v admin now) driver) db.

(** [UPDATE users SET training_completed = 1 WHERE user_id = ?] *)
Definition update_trained (user_id : Z) (db : DB) : DB :=
  set_users (alter user_set_trained user_id) db.

(** The drivers [notify_drivers_about_trip] offers a trip to, handlers.py
    459-466: [WHERE d.verified = 1 AND d.online_status = 1 LIMIT 10] over
    the join with [users]. *)
Definition eligible (d : Driver) : bool := (verified d =? 1) && (online_status d =? 1).

Definition offered_drivers (db : DB) : list Z :=
  take 10 (omap (λ kd : Z * Driver,
                   if eligible kd.2 && bool_decide (is_Some (users db !! kd.1))
                   then Some kd.1 else None)
                (map_to_list (drivers db))).

End Sql.

(** ** handlers.py: the handlers *)

Module Handlers.
Import Store Sql.

(** What the handler shows to the user who triggered it. *)
Inductive Reply :=
| AcceptOk            (* "Заказ принят!" *)
| AcceptUnavailable   (* "Этот заказ уже недоступен." *)
| AcceptNotVerified   (* "Вы не можете принимать заказы." *)
| StartOk             (* "Поездка началась!" *)
| StartRefused        (* "Нельзя начать эту поездку." *)
| WaitingStopped (minutes charge : Z)
| WaitingNotFound     (* "Ошибка: время ожидания не найдено" *)
| CompleteOk (final : Z)
| CompleteAlready     (* "Эта поездка уже завершена." *)
| CompleteRefused     (* "Нельзя завершить эту поездку." *)
| TripRouteMissing    (* "Ошибка: не выбран маршрут." *)
| TripNeedsPhone      (* "Для заказа нужен телефон" *)
| TripCreated (p distance : Z)
| ExperienceInvalid   (* "Введите число от 0 до 70" *)
| ApplicationSent     (* "Заявка отправлена!" *)
| AccessDenied        (* "Доступ запрещен" *)
| DriverVerified
| DriverRejected
| Raised.             (* an exception left the handler *)

#[global] Instance Reply_eq_dec : EqDecision Reply.
Proof. solve_decision. Defined.

(** [context.user_data], the keys the handlers below use. *)
Record Session := mkSession {
  trip_from : option string;
  current_trip : option string;
  review_trip : option string;
  pending_rating : option Z;             (* key 'review_rating' *)
  waiting_start : gmap string Timestamp; (* keys 'waiting_start_<trip_id>' *)
  driver_full_name : option string;
  driver_car_model : option string;
  driver_car_number : option string
}.

Definition empty_session : Session := mkSession None None None None ∅ None None None.

(** Python truthiness of an optional string: [None] and [''] are falsy. *)
Definition nonempty (o : option string) : bool :=
  match o with
  | Some s => negb (String.eqb s "")
  | None => false
  end.

(** [accept_trip], handlers.py 492-583.  After the UPDATE the handler
    reads the passenger's row to build its reply; [passenger['first_name']]
    raises when there is no such row. *)
Definition accept_trip (now : Timestamp) (driver_id : Z) (trip_id : string)
    (db : DB) : Reply * DB :=
  match get_trip_in searching db trip_id with
  | None => (AcceptUnavailable, db)
  | Some trip =>
      match get_driver db driver_id with
      | None => (AcceptNotVerified, db)
      | Some driver =>
          if verified driver =? 0 then (AcceptNotVerified, db)
          else
            let db1 := update_trip_accepted now driver_id trip_id db in
            let db2 := log_action now driver_id "accept_trip" db1 in
            match get_user db2 (passenger_id trip) with
            | Some _ => (AcceptOk, db2)
            | None => (Raised, db2)
            end
      end
  end.

(** [start_trip], handlers.py 585-640.  [user_id] only chooses whom the
    "trip started" notice is sent to. *)
Definition start_trip (now : Timestamp) (user_id : Z) (trip_id : string)
    (db : DB) : Reply * DB :=
  match get_trip_in accepted db trip_id with
  | None => (StartRefused, db)
  | Some trip => (StartOk, update_trip_started now trip_id db)
  end.

(** [int((datetime.now() - start_time).total_seconds() / 60)]: whole
    minutes, truncated towards zero. *)
Definition elapsed_minutes (start now : Timestamp) : Z := Z.quot (now - start) 60.

(** [stop_waiting], handlers.py 669-704. *)
Definition stop_waiting (now : Timestamp) (trip_id : string)
    (s : Session) (db : DB) : Reply * DB * Session :=
  match waiting_start s !! trip_id with
  | Some start_time =>
      let minutes := elapsed_minutes start_time now in
      let charge := Pricing.calculate_waiting_charge minutes in
      (WaitingStopped minutes charge,
       update_trip_waiting minutes charge trip_id db,
       mkSession (trip_from s) (current_trip s) (review_trip s) (pending_rating s)
                 (delete trip_id (waiting_start s))
                 (driver_full_name s) (driver_car_model s) (driver_car_number s))
  | None => (WaitingNotFound, db, s)
  end.

(** [complete_trip], handlers.py 706-791.  [CompleteOk] carries the total
    of the closing message. *)
Definition complete_trip (now : Timestamp) (user_id : Z) (trip_id : string)
    (db : DB) : Reply * DB :=
  match get_trip_in started db trip_id with
  | None =>
      match get_trip db trip_id with
      | Some trip =>
          if decide (status trip = completed) then (CompleteAlready, db)
          else (CompleteRefused, db)
      | None => (CompleteRefused, db)
      end
  | Some trip =>
      let final_price := price trip + default 0 (waiting_charge trip) in
      let db1 := update_trip_completed now final_price trip_id db in
      let db2 := incr_trips_count (Some (passenger_id trip)) db1 in
      let db3 := incr_trips_count (driver_id trip) db2 in
      (CompleteOk final_price, log_action now user_id "complete_trip" db3)
  end.

(** [trip_confirm], handlers.py 383-454; [trip_id] is the fresh
    [str(uuid4())], and the class is the default ['economy']. *)
Definition trip_confirm
    (DISTANCES : gmap (string * string) Z) (CAR_CLASSES : gmap string Pricing.CarInfo)
    (now : Timestamp) (user_id : Z) (trip_id to_city : string)
    (s : Session) (db : DB) : Reply * DB * Session :=
  if negb (nonempty (trip_from s)) || String.eqb to_city ""
  then (TripRouteMissing, db, s)
  else
    match get_user db user_id with
    | None => (TripNeedsPhone, db, s)
    | Some user =>
        if negb (nonempty (phone user)) then (TripNeedsPhone, db, s)
        else
          let from_c := default "" (trip_from s) in
          let '(p, distance) :=
            Pricing.calculate_price DISTANCES CAR_CLASSES from_c to_city "economy" in
          let db1 := insert_trip now trip_id user_id from_c to_city p db in
          let db2 := log_action now user_id "create_trip" db1 in
          (TripCreated p distance, db2,
           mkSession (trip_from s) (Some trip_id) (review_trip s) (pending_rating s)
                     (waiting_start s)
                     (driver_full_name s) (driver_car_model s) (driver_car_number s))
    end.

(** [trip['driver_id'] if user_id == trip['passenger_id'] else
    trip['passenger_id']], handlers.py 875. *)
Definition review_addressee (user_id : Z) (trip : Trip) : option Z :=
  if user_id =? passenger_id trip then driver_id trip
  else Some (passenger_id trip).

(** [save_review], handlers.py 856-899.  The function returns nothing:
    its effect is the new database and session. *)
Definition save_review (now : Timestamp) (user_id : Z) (text : string)
    (s : Session) (db : DB) : DB * Session :=
  if negb (nonempty (review_trip s)) || negb (Pricing.truthy (pending_rating s))
  then (db, s)
  else
    let trip_id := default "" (review_trip s) in
    let r := default 0 (pending_rating s) in
    match get_trip db trip_id with
    | None => (db, s)
    | Some trip =>
        let to := review_addressee user_id trip in
        let db1 := insert_review now trip_id user_id to r text db in
        let avg := avg_rating to db1 in
        let db2 := update_rating avg to db1 in
        (db2,
         mkSession (trip_from s) (current_trip s) None None (waiting_start s)
                   (driver_full_name s) (driver_car_model s) (driver_car_number s))
    end.

End Handlers.

(** ** handlers.py, bot.py: the driver registry *)

Module Registry.
Import Store Sql Handlers.

(** [is_admin], utils.py 116-118. *)
Definition is_admin (user_id : Z) (admins_list : list Z) : bool :=
  bool_decide (user_id ∈ admins_list).

(** [driver_experience], handlers.py 1003-1050.  [parsed] is
    [int(update.message.text)], [None] when the text is no integer.  A
    session without one of the three earlier answers raises [KeyError]
    while the INSERT's arguments are built.  (The closing
    [return ConversationHandler.END] names a class handlers.py does not
    import; by then the statements have run and the reply is sent.) *)
Definition driver_experience (now : Timestamp) (user_id : Z) (parsed : option Z)
    (s : Session) (db : DB) : Reply * DB * Session :=
  match parsed with
  | None => (ExperienceInvalid, db, s)
  | Some years =>
      if (years <? 0) || (70 <? years) then (ExperienceInvalid, db, s)
      else
        match driver_full_name s, driver_car_model s, driver_car_number s with
        | Some name, Some model, Some number =>
            let db1 := insert_driver user_id name model number years db in
            let db2 := update_role_driver user_id db1 in
            let db3 := log_action now user_id "driver_registration" db2 in
            (ApplicationSent, db3, empty_session)
        | _, _, _ => (Raised, db, s)
        end
  end.

(** [admin_verify_driver], handlers.py 1180-1219. *)
Definition admin_verify_driver (ADMINS : list Z) (now : Timestamp)
    (admin_id driver_id : Z) (db : DB) : Reply * DB :=
  if is_admin admin_id ADMINS then
    (DriverVerified,
     log_action now admin_id "verify_driver"
       (update_driver_verified 1 now admin_id driver_id db))
  else (AccessDenied, db).

(** [admin_reject_driver], handlers.py 1221-1255. *)
Definition admin_reject_driver (ADMINS : list Z) (now : Timestamp)
    (admin_id driver_id : Z) (db : DB) : Reply * DB :=
  if is_admin admin_id ADMINS then
    (DriverRejected,
     log_action now admin_id "reject_driver"
       (update_driver_verified (-1) now admin_id driver_id db))
  else (AccessDenied, db).

(** [driver_online] and [driver_offline]: handlers.py defines neither; the
    only definitions are those at the end of bot.py (218-219), whose body
    is [pass]. *)
Definition driver_online (user_id : Z) (db : DB) : DB := db.
Definition driver_offline (user_id : Z) (db : DB) : DB := db.

(** [skip_training], handlers.py 199-209. *)
Definition skip_training (user_id : Z) (db : DB) : DB := update_trained user_id db.

(** The invariant of the Driver record: a driver who is not verified is
    not online. *)
Definition driver_inv (d : Driver) : Prop := verified d ≠ 1 → online_status d = 0.

Definition drivers_inv (db : DB) : Prop :=
  ∀ id d, drivers db !! id = Some d → driver_inv d.

(** No driver has the online flag set. *)
Definition all_offline (db : DB) : Prop :=
  ∀ id d, drivers db !! id = Some d → online_status d = 0.

End Registry.

(** ** The operations on the database, as one step function *)

Module Lifecycle.
Import Store Sql Handlers Registry.

(** One call of a handler that writes the database, with the inputs it
    takes from the update and from the caller's session. *)
Inductive Op :=
| OpCreate (now : Timestamp) (user_id : Z) (trip_id to_city : string) (s : Session)
| OpAccept (now : Timestamp) (driver_id : Z) (trip_id : string)
| OpStart (now : Timestamp) (user_id : Z) (trip_id : string)
| OpStopWaiting (now : Timestamp) (trip_id : string) (s : Session)
| OpComplete (now : Timestamp) (user_id : Z) (trip_id : string)
| OpReview (now : Timestamp) (user_id : Z) (text : string) (s : Session)
| OpRegister (now : Timestamp) (user_id : Z) (parsed : option Z) (s : Session)
| OpVerify (now : Timestamp) (admin_id driver_id : Z)
| OpReject (now : Timestamp) (admin_id driver_id : Z)
| OpOnline (user_id : Z)
| OpOffline (user_id : Z)
| OpSkipTraining (user_id : Z).

Section Config.
Variable DISTANCES : gmap (string * string) Z.
Variable CAR_CLASSES : gmap string Pricing.CarInfo.
Variable ADMINS : list Z.

Definition step (op : Op) (db : DB) : DB :=
  match op with
  | OpCreate now u tid to s => (trip_confirm DISTANCES CAR_CLASSES now u tid to s db).1.2
  | OpAccept now d tid => (accept_trip now d tid db).2
  | OpStart now u tid => (start_trip now u tid db).2
  | OpStopWaiting now tid s => (stop_waiting now tid s db).1.2
  | OpComplete now u tid => (complete_trip now u tid db).2
  | OpReview now u text s => (save_review now u text s db).1
  | OpRegister now u parsed s => (driver_experience now u parsed s db).1.2
  | OpVerify now a d => (admin_verify_driver ADMINS now a d db).2
  | OpReject now a d => (admin_reject_driver ADMINS now a d db).2
  | OpOnline u => driver_online u db
  | OpOffline u => driver_offline u db
  | OpSkipTraining u => skip_training u db
  end.

Definition run (ops : list Op) (db : DB) : DB := foldl (λ d op, step op d) db ops.
End Config.

(** A property of every row of [trips]. *)
Definition trips_all (P : Trip → Prop) (db : DB) : Prop :=
  ∀ id t, trips db !! id = Some t → P t.

(** A trip has a final price exactly when it is completed. *)
Definition price_settled (t : Trip) : Prop :=
  is_Some (final_price t) ↔ status t = completed.

Definition final_price_inv (db : DB) : Prop := trips_all price_settled db.

(** A trip is not cancelled and records no cancelling actor or reason. *)
Definition not_cancelled (t : Trip) : Prop :=
  status t ≠ cancelled ∧ cancelled_by t = None ∧ cancel_reason t = None.

Definition never_cancelled (db : DB) : Prop := trips_all not_cancelled db.

(** How often a user takes part in a trip: once as its passenger, once as
    its driver. *)
Definition parts_in (u : Z) (t : Trip) : Z :=
  (if bool_decide (u = passenger_id t) then 1 else 0) +
  (if bool_decide (driver_id t = Some u) then 1 else 0).

(** The three guarded transitions of the trip state machine. *)
Inductive Transition :=
| TAccept (driver_id : Z)
| TStart (actor : Z)
| TComplete (actor : Z).

Definition required_status (tr : Transition) : TripStatus :=
  match tr with
  | TAccept _ => searching
  | TStart _ => accepted
  | TComplete _ => started
  end.

Definition apply_transition (now : Timestamp) (tr : Transition) (trip_id : string)
    (db : DB) : Reply * DB :=
  match tr with
  | TAccept d => accept_trip now d trip_id db
  | TStart a => start_trip now a trip_id db
  | TComplete a => complete_trip now a trip_id db
  end.

(** The replies that tell the user the trip is not available for the
    operation. *)
Definition benign (r : Reply) : Prop :=
  r = AcceptUnavailable ∨ r = StartRefused ∨ r = CompleteAlready ∨ r = CompleteRefused.

(** A verified driver, with the user row every driver row refers to. *)
Definition verified_driver (db : DB) (d : Z) : Prop :=
  (∃ drv, drivers db !! d = Some drv ∧ verified drv = 1) ∧ is_Some (users db !! d).

End Lifecycle.

(** ** accept_trip under concurrent attempts

    A handler is a coroutine: whether the library runs the handlers one
    at a time or as concurrent tasks, a handler gives up control only at
    an [await].  In [accept_trip] the first is [query.answer()]
    (handlers.py 495), before anything is read.  From the SELECT (501)
    through the UPDATE (528) to the log row (535) there is none, so this
    stretch runs with no statement of another handler in between.  The
    refusals return right after their message; an attempt that wrote goes
    on to send the passenger a message (548), then reads the passenger's
    row (563) and shows its reply (573). *)

Module Race.
Import Store Sql Handlers.

(** Where a running [accept_trip] stands, with the row its SELECT
    returned. *)
Inductive AcceptPC :=
| pc_called                 (* at [await query.answer()] *)
| pc_answered               (* about to run the SELECT *)
| pc_notify (trip : Trip)   (* has written; at [await context.bot.send_message] *)
| pc_done (r : Reply).

(** The stretch from the SELECT to the next [await], handlers.py
    501-548. *)
Definition accept_body (now : Timestamp) (driver_id : Z) (trip_id : string)
    (db : DB) : AcceptPC * DB :=
  match get_trip_in searching db trip_id with
  | None => (pc_done AcceptUnavailable, db)
  | Some trip =>
      match get_driver db driver_id with
      | None => (pc_done AcceptNotVerified, db)
      | Some driver =>
          if verified driver =? 0 then (pc_done AcceptNotVerified, db)
          else
            (pc_notify trip,
             log_action now driver_id "accept_trip"
               (update_trip_accepted now driver_id trip_id db))
      end
  end.

(** One stretch of a running attempt, from where it stands to its next
    [await] or its end. *)
Definition accept_step (now : Timestamp) (driver_id : Z) (trip_id : string)
    (pc : AcceptPC) (db : DB) : AcceptPC * DB :=
  match pc with
  | pc_called => (pc_answered, db)
  | pc_answered => accept_body now driver_id trip_id db
  | pc_notify trip =>
      match get_user db (passenger_id trip) with
      | Some _ => (pc_done AcceptOk, db)
      | None => (pc_done Raised, db)
      end
  | pc_done r => (pc_done r, db)
  end.

(** A handler left alone until it returns: three stretches. *)
Definition accept_alone (now : Timestamp) (driver_id : Z) (trip_id : string)
    (db : DB) : AcceptPC * DB :=
  Nat.iter 3 (λ st, accept_step now driver_id trip_id st.1 st.2) (pc_called, db).

(** An attempt in flight: the instant its UPDATE will bind, its driver,
    and where it stands. *)
Record Attempt := mkAttempt { at_now : Timestamp; at_driver : Z; at_pc : AcceptPC }.

Definition fresh (a : Timestamp * Z) : Attempt := mkAttempt a.1 a.2 pc_called.

(** The event loop lets attempt [i] run its next stretch. *)
Definition sched_step (trip_id : string) (st : list Attempt * DB) (i : nat)
    : list Attempt * DB :=
  match st.1 !! i with
  | Some a =>
      let '(pc', db') := accept_step (at_now a) (at_driver a) trip_id (at_pc a) st.2 in
      (<[i := mkAttempt (at_now a) (at_driver a) pc']> st.1, db')
  | None => st
  end.

(** The attempts under a schedule: the list of the attempts whose turn it
    is, one stretch each. *)
Definition run_schedule (trip_id : string) (schedule : list nat)
    (attempts : list (Timestamp * Z)) (db : DB) : list Attempt * DB :=
  foldl (sched_step trip_id) (fresh <$> attempts, db) schedule.

(** The attempt has taken the trip. *)
Definition won (a : Attempt) : bool :=
  match at_pc a with
  | pc_notify _ => true
  | pc_done AcceptOk => true
  | _ => false
  end.

(** The attempt has returned. *)
Definition returned (a : Attempt) : Prop := ∃ r, at_pc a = pc_done r.

(** The attempt has not yet run its SELECT. *)
Definition pending (a : Attempt) : Prop := at_pc a = pc_called ∨ at_pc a = pc_answered.

(** What a schedule makes of the attempts on the searching trip [t] of
    the database [db0]: the attempts are those that were made, and the
    users and drivers those of [db0]; and either nobody has run the
    SELECT yet and the trips are those of [db0], or one attempt has taken
    the trip, which is bound to its driver, and every other attempt is
    pending or was refused as too late. *)
Definition race_inv (trip_id : string) (t : Trip) (attempts : list (Timestamp * Z))
    (db0 : DB) (st : list Attempt * DB) : Prop :=
  (λ a, (at_now a, at_driver a)) <$> st.1 = attempts ∧
  users st.2 = users db0 ∧ drivers st.2 = drivers db0 ∧
  ((trips st.2 = trips db0 ∧ Forall pending st.1) ∨
   (∃ i w, st.1 !! i = Some w ∧ won w = true ∧
      (at_pc w = pc_notify t ∨ at_pc w = pc_done AcceptOk) ∧
      trips st.2 = <[trip_id := trip_set_accepted (at_driver w) (at_now w) t]> (trips db0) ∧
      ∀ j a, j ≠ i → st.1 !! j = Some a →
        pending a ∨ at_pc a = pc_done AcceptUnavailable)).

End Race.

(** ** bot.py: which handler a callback query reaches

    [main] registers its handlers by name.  (bot.py ends with empty
    definitions of the same names, 197-236, which are the ones in scope when
    [main] runs; the properties below are about the handlers of handlers.py
    and about which name a callback query is routed to.) *)

Module Bot.

(** The two shapes of pattern [main] registers: ["^lit$"] and
    ["^lit.*$"]. *)
Inductive Pattern := Exactly (lit : string) | StartsWith (lit : string).

Fixpoint strip_prefix (lit s : string) : option string :=
  match lit with
  | EmptyString => Some s
  | String c lit' =>
      match s with
      | String d s' => if Ascii.eqb c d then strip_prefix lit' s' else None
      | EmptyString => None
      end
  end.

Definition newline : ascii := ascii_of_nat 10.

(** [$]: the end of the text, or just before a final line break. *)
Definition at_end (s : string) : bool :=
  String.eqb s "" || String.eqb s (String newline "").

(** [.*$]: characters other than a line break, up to [$]. *)
Fixpoint line_end (s : string) : bool :=
  match s with
  | EmptyString => true
  | String c rest => if Ascii.eqb c newline then String.eqb rest "" else line_end rest
  end.

(** [re.match(pattern, data)] *)
Definition re_match (p : Pattern) (data : string) : bool :=
  match p with
  | Exactly lit =>
      match strip_prefix lit data with
      | Some rest => at_end rest
      | None => false
      end
  | StartsWith lit =>
      match strip_prefix lit data with
      | Some rest => line_end rest
      | None => false
      end
  end.

(** The callbacks registered by [main], bot.py 92-176, by name. *)
Inductive Callback :=
| cb_back_to_main | cb_show_profile | cb_set_phone_start | cb_new_trip
| cb_trip_select_from | cb_trip_select_to | cb_trip_confirm
| cb_accept_trip | cb_start_trip | cb_complete_trip | cb_start_waiting
| cb_leave_review | cb_submit_review
| cb_become_driver_start | cb_driver_online | cb_driver_offline
| cb_my_trips_driver | cb_my_trips_passenger
| cb_training_start | cb_training_scenario | cb_training_complete | cb_skip_training
| cb_sos_alert
| cb_admin_panel | cb_admin_users | cb_admin_drivers | cb_admin_stats
| cb_admin_settings | cb_admin_verify_driver | cb_admin_reject_driver
| cb_admin_block_user | cb_admin_unblock_user.

(** What a callback query is routed to: a plain [CallbackQueryHandler], or
    the entry point of a [ConversationHandler]. *)
Inductive Routed := Plain (c : Callback) | Entry (c : Callback).

(** The handlers of group 0 that accept callback queries, in the order
    [main] adds them: bot.py 92-141, then the entry points of the three
    conversations (146, 159, 169). *)
Definition callback_handlers : list (Pattern * Routed) :=
  [ (Exactly "back_to_main", Plain cb_back_to_main);
    (Exactly "profile", Plain cb_show_profile);
    (Exactly "set_phone", Plain cb_set_phone_start);
    (Exactly "new_trip", Plain cb_new_trip);
    (Exactly "trip_select_from", Plain cb_trip_select_from);
    (StartsWith "trip_from_", Plain cb_trip_select_to);
    (StartsWith "trip_to_", Plain cb_trip_confirm);
    (StartsWith "accept_trip_", Plain cb_accept_trip);
    (StartsWith "start_trip_", Plain cb_start_trip);
    (StartsWith "complete_trip_", Plain cb_complete_trip);
    (StartsWith "waiting_", Plain cb_start_waiting);
    (StartsWith "review_", Plain cb_leave_review);
    (StartsWith "submit_review_", Plain cb_submit_review);
    (Exactly "become_driver", Plain cb_become_driver_start);
    (Exactly "driver_online", Plain cb_driver_online);
    (Exactly "driver_offline", Plain cb_driver_offline);
    (Exactly "my_trips_driver", Plain cb_my_trips_driver);
    (Exactly "my_trips_passenger", Plain cb_my_trips_passenger);
    (Exactly "training_start", Plain cb_training_start);
    (StartsWith "training_", Plain cb_training_scenario);
    (Exactly "training_complete", Plain cb_training_complete);
    (Exactly "skip_training", Plain cb_skip_training);
    (Exactly "sos", Plain cb_sos_alert);
    (Exactly "admin_panel", Plain cb_admin_panel);
    (Exactly "admin_users", Plain cb_admin_users);
    (Exactly "admin_drivers", Plain cb_admin_drivers);
    (Exactly "admin_stats", Plain cb_admin_stats);
    (Exactly "admin_settings", Plain cb_admin_settings);
    (StartsWith "verify_driver_", Plain cb_admin_verify_driver);
    (StartsWith "reject_driver_", Plain cb_admin_reject_driver);
    (StartsWith "block_user_", Plain cb_admin_block_user);
    (StartsWith "unblock_user_", Plain cb_admin_unblock_user);
    (Exactly "become_driver", Entry cb_become_driver_start);
    (Exactly "set_phone", Entry cb_set_phone_start);
    (StartsWith "review_", Entry cb_leave_review) ].

(** Within a group the first handler whose pattern matches takes the
    update; when none does, the update is dropped. *)
Fixpoint first_match (hs : list (Pattern * Routed)) (data : string) : option Routed :=
  match hs with
  | [] => None
  | (p, h) :: rest => if re_match p data then Some h else first_match rest data
  end.

Definition route (data : string) : option Routed := first_match callback_handlers data.

(** The callback data of the "cancel order" button that [trip_confirm]
    attaches to a new trip, handlers.py 438. *)
Definition cancel_button (trip_id : string) : string :=
  String.append "cancel_trip_" trip_id.

End Bot.

(** ** utils.py: showing a phone number *)

Module Phone.
Import Store Sql.

(** A Python [str] is kept as its UTF-8 bytes; [len], slices and the
    character classes of [re] count characters, so the bytes are grouped
    into characters first: a byte [10xxxxxx] continues the character
    before it. *)
Definition is_continuation (c : ascii) : bool :=
  let n := N_of_ascii c in ((128 <=? n) && (n <? 192))%N.

Definition continues (s : string) : bool :=
  match s with
  | String c _ => is_continuation c
  | EmptyString => false
  end.

Fixpoint characters (s : string) : list string :=
  match s with
  | EmptyString => []
  | String c rest =>
      match characters rest with
      | ch :: tl => if continues ch then String c ch :: tl else String c "" :: ch :: tl
      | [] => [String c ""]
      end
  end.

Definition lead_bits (c : ascii) : N :=
  let n := N_of_ascii c in
  (if n <? 128 then n else if n <? 224 then n - 192
   else if n <? 240 then n - 224 else n - 240)%N.

Fixpoint continuation_bits (acc : N) (s : string) : N :=
  match s with
  | String c rest => continuation_bits (acc * 64 + (N_of_ascii c - 128))%N rest
  | EmptyString => acc
  end.

(** The code point of one character. *)
Definition code_point (ch : string) : N :=
  match ch with
  | String c rest => continuation_bits (lead_bits c) rest
  | EmptyString => 0%N
  end.

(** [\s] of a [str] pattern: the characters [str.isspace] accepts. *)
Definition is_space (cp : N) : bool :=
  (((9 <=? cp) && (cp <=? 13)) || ((28 <=? cp) && (cp <=? 32)) ||
   (cp =? 133) || (cp =? 160) || (cp =? 5760) ||
   ((8192 <=? cp) && (cp <=? 8202)) || (cp =? 8232) || (cp =? 8233) ||
   (cp =? 8239) || (cp =? 8287) || (cp =? 12288))%N.

(** The class [[\s\-\(\)]]. *)
Definition separator (ch : string) : bool :=
  let cp := code_point ch in
  (is_space cp || (cp =? 45) || (cp =? 40) || (cp =? 41))%N.

(** [re.sub(r'[\s\-\(\)]', '', phone)], as the list of its characters. *)
Definition cleaned (phone : string) : list string :=
  List.filter (λ ch, negb (separator ch)) (characters phone).

(** [cleaned[i:j]] *)
Definition slice (i j : nat) (l : list string) : string :=
  String.concat "" (take (j - i) (drop i l)).

(** [format_phone], utils.py 49-54. *)
Definition format_phone (phone : string) : string :=
  let c := cleaned phone in
  if Nat.eqb (length c) 11 then
    String.append "+7 ("
      (String.append (slice 1 4 c)
         (String.append ") "
            (String.append (slice 4 7 c)
               (String.append "-"
                  (String.append (slice 7 9 c)
                     (String.append "-" (slice 9 11 c)))))))
  else phone.

(** [decrypt_phone], utils.py 29-37.  [cipher] is the Fernet object of
    the module, [None] when its construction failed; its [decrypt] yields
    [None] when it raises. *)
Definition decrypt_phone (cipher : option (string → option string))
    (encrypted : option string) : string :=
  match cipher with
  | Some decrypt =>
      if Handlers.nonempty encrypted then default "" (decrypt (default "" encrypted))
      else ""
  | None => ""
  end.

Definition not_specified : string := "❌ Не указан".
Definition decrypt_failed : string := "❌ Ошибка расшифровки".
Definition hidden : string := "🔒 Скрыт (доступен после подтверждения)".

(** [user_id == trip['passenger_id'] or user_id == trip['driver_id']] *)
Definition is_party (user_id : Z) (t : Trip) : bool :=
  (user_id =? passenger_id t) || bool_decide (driver_id t = Some user_id).

(** [format_phone_for_display], utils.py 98-114; [trip_id] and [db]
    default to [None]. *)
Definition format_phone_for_display (cipher : option (string → option string))
    (encrypted : option string) (user_id : Z)
    (trip_id : option string) (db : option DB) : string :=
  if negb (Handlers.nonempty encrypted) then not_specified
  else
    match (if Handlers.nonempty trip_id then db else None) with
    | Some d =>
        match trips d !! default "" trip_id with
        | Some trip =>
            if is_party user_id trip then
              let phone := decrypt_phone cipher encrypted in
              if negb (String.eqb phone "") then format_phone phone else decrypt_failed
            else hidden
        | None => hidden
        end
    | None => hidden
    end.

(** The trip the request names, when there is one. *)
Definition named_trip (trip_id : option string) (db : option DB) : option Trip :=
  match db with
  | Some d => if Handlers.nonempty trip_id then trips d !! default "" trip_id else None
  | None => None
  end.

End Phone.

(** ** A small database for the examples *)

Module Examples.
Import Store Sql Handlers.

(** Passenger 1 with a phone on file, drivers 2 and 3, a bystander 4 and
    the operator 9. *)
Definition some_users : gmap Z User :=
  {[ 1 := mkUser "Anna" (Some "token-1") "passenger" 0 (Some (5 # 1)) 0 1 (Some 0);
     2 := mkUser "Boris" (Some "token-2") "driver" 0 (Some (5 # 1)) 0 1 (Some 0);
     3 := mkUser "Vera" None "driver" 0 (Some (5 # 1)) 0 1 (Some 0);
     4 := mkUser "Gleb" None "passenger" 0 (Some (5 # 1)) 0 1 (Some 0);
     9 := mkUser "Olga" None "admin" 0 (Some (5 # 1)) 0 1 (Some 0) ]}.

Definition a_driver (v online : Z) : Driver :=
  mkDriver "Boris B" None "Lada Vesta" "A123BB77" "economy" 7 v (Some 9) (Some 1) online.

Definition some_drivers : gmap Z Driver :=
  {[ 2 := a_driver 1 0; 3 := a_driver 1 0 ]}.

(** A trip of passenger 1 at base price 600. *)
Definition a_trip (d : option Z) (st : TripStatus) (final : option Z) : Trip :=
  mkTrip 1 d "Kazan" "Samara" 600 "economy" st 1 None None None None None
         (Some 0) (Some 0) final.

Definition db_with (t : Trip) : DB :=
  mkDB some_users some_drivers {[ "t1" := t ]} [] [].

Definition db_searching : DB := db_with (a_trip None searching None).
Definition db_accepted : DB := db_with (a_trip (Some 2) accepted None).
Definition db_started : DB := db_with (a_trip (Some 2) started None).
Definition db_completed : DB := db_with (a_trip (Some 2) completed (Some 600)).

(** Driver 2 verified and online. *)
Definition db_online : DB :=
  mkDB some_users {[ 2 := a_driver 1 1 ]} ∅ [] [].

(** A session in the middle of the review flow. *)
Definition reviewing (r : Z) : Session :=
  mkSession None None (Some "t1") (Some r) ∅ None None None.

(** A session at the last step of the driver registration. *)
Definition registering : Session :=
  mkSession None None None None ∅ (Some "Gleb G") (Some "Kia Rio") (Some "B456CC16").

(** A session whose waiting timer for "t1" started at instant 100. *)
Definition waiting_since_100 : Session :=
  mkSession None None None None {[ "t1" := 100 ]} None None None.

(** A cipher that decrypts every token to the same number. *)
Definition a_cipher : option (string → option string) :=
  Some (λ _, Some "89991234567").

End Examples.

(** ** The trip state machine, as the statements move a row *)

Module Machine.
Import Store Sql Handlers Registry Lifecycle.

(** The status that follows a status on the way to completion. *)
Definition next_status (st : TripStatus) : option TripStatus :=
  match st with
  | searching => Some accepted
  | accepted => Some started
  | started => Some completed
  | completed => None
  | cancelled => None
  end.

(** One row before and after an operation: the request itself (passenger,
    route, price, creation time) is what it was, and the status is the
    same or the next one. *)
Definition advances (t t' : Trip) : Prop :=
  passenger_id t' = passenger_id t ∧ from_city t' = from_city t ∧
  to_city t' = to_city t ∧ price t' = price t ∧ created_at t' = created_at t ∧
  (status t' = status t ∨ next_status (status t) = Some (status t')).

(** The status has been reached: the trip is accepted, started or
    completed. *)
Definition taken (st : TripStatus) : Prop :=
  st = accepted ∨ st = started ∨ st = completed.

Definition under_way (st : TripStatus) : Prop := st = started ∨ st = completed.

(** What the columns a transition fills say about the status: the driver
    and the acceptance time are there exactly from accepted on, the start
    time from started on, the completion time when completed. *)
Definition stamped (t : Trip) : Prop :=
  (is_Some (driver_id t) ↔ taken (status t)) ∧
  (is_Some (accepted_at t) ↔ taken (status t)) ∧
  (is_Some (started_at t) ↔ under_way (status t)) ∧
  (is_Some (completed_at t) ↔ status t = completed).

(** Whether an operation can write the [verified] column of driver [id]:
    the registration of [id], and a decision on [id] by a listed
    operator. *)
Definition decides_on (ADMINS : list Z) (id : Z) (op : Op) : bool :=
  match op with
  | OpRegister _ u _ _ => u =? id
  | OpVerify _ a d => is_admin a ADMINS && (d =? id)
  | OpReject _ a d => is_admin a ADMINS && (d =? id)
  | _ => false
  end.

End Machine.

(** ** handlers.py: the main menu *)

Module Menu.
Import Store Sql Handlers Registry.

(** [get_main_keyboard], handlers.py 43-80: the callback data of the
    buttons, in order.  A user without a row is treated as a passenger. *)
Definition get_main_keyboard (ADMINS : list Z) (user_id : Z) (db : DB) : list string :=
  let user := get_user db user_id in
  let role := match user with Some u => role u | None => "passenger" end in
  ["new_trip"; "profile"] ++
  (if String.eqb role "passenger" then ["my_trips_passenger"] else []) ++
  (if String.eqb role "driver" then
     match get_driver db user_id with
     | Some driver =>
         if verified driver =? 0 then []
         else [ (if online_status driver =? 0 then "driver_online" else "driver_offline");
                "my_trips_driver" ]
     | None => []
     end
   else []) ++
  (if String.eqb role "passenger" then ["become_driver"] else []) ++
  (match user with
   | Some u => if training_completed u =? 0 then ["training_start"] else []
   | None => ["training_start"]
   end) ++
  ["sos"] ++
  (if is_admin user_id ADMINS then ["admin_panel"] else []).

(** The buttons of [admin_panel], handlers.py 1112-1119. *)
Definition admin_panel_buttons : list string :=
  ["admin_users"; "admin_drivers_pending"; "admin_drivers_verified";
   "admin_stats"; "admin_settings"; "back_to_main"].

(** The buttons that carry a trip id which no pattern of [main] covers:
    "check status" (handlers.py 437) and "call the passenger" (570). *)
Definition check_button (trip_id : string) : string := String.append "check_trip_" trip_id.
Definition call_button (trip_id : string) : string := String.append "call_passenger_" trip_id.

(** The rating buttons of [leave_review], handlers.py 803-808, and the
    "stop waiting" button of [start_waiting], 653. *)
Definition rating_button (digits : string) : string := String.append "review_rating_" digits.
Definition waiting_stop_button (trip_id : string) : string :=
  String.append "waiting_stop_" trip_id.

End Menu.

(** ** What stays of a completed trip *)

Module Settled.
Import Store.

(** A completed trip keeps its status, parties, price, final price and
    completion time. *)
Definition final_kept (t t' : Trip) : Prop :=
  status t = completed →
  status t' = completed ∧ final_price t' = final_price t ∧
  passenger_id t' = passenger_id t ∧ driver_id t' = driver_id t ∧
  price t' = price t ∧ completed_at t' = completed_at t.

End Settled.

(** ** utils.py: cleaning and checking text *)

Module Text.
Import Phone.

(** The class [[\x00-\x1f\x7f-\x9f]]. *)
Definition is_control (cp : N) : bool :=
  ((cp <=? 31) || ((127 <=? cp) && (cp <=? 159)))%N.

(** [sanitize_input], utils.py 128-133. *)
Definition sanitize_input (text : string) : string :=
  String.concat "" (List.filter (λ ch, negb (is_control (code_point ch))) (characters text)).

(** [str.strip()]: white space taken off both ends. *)
Fixpoint lstrip (l : list string) : list string :=
  match l with
  | ch :: tl => if is_space (code_point ch) then lstrip tl else l
  | [] => []
  end.

Definition strip (text : string) : string :=
  String.concat "" (rev (lstrip (rev (lstrip (characters text))))).

(** One of the characters [0] to [9]. *)
Definition digit (ch : string) : bool :=
  match ch with
  | String c EmptyString => ((48 <=? N_of_ascii c) && (N_of_ascii c <=? 57))%N
  | _ => false
  end.

(** [[0-9]{10}$] *)
Definition ten_digits (l : list string) : bool :=
  Nat.eqb (length l) 10 && forallb digit l.

(** [validate_phone], utils.py 39-47: after the separators are taken out,
    [+7] or [8] and ten digits. *)
Definition validate_phone (phone : string) : bool :=
  match cleaned phone with
  | first :: rest =>
      if String.eqb first "8" then ten_digits rest
      else if String.eqb first "+" then
        match rest with
        | second :: digits => String.eqb second "7" && ten_digits digits
        | [] => false
        end
      else false
  | [] => false
  end.

(** A list of characters as [characters] produces them: every character
    is a first byte followed by continuation bytes only, and every
    character but possibly the first starts with a byte that is no
    continuation byte. *)
Fixpoint continuation_only (s : string) : bool :=
  match s with
  | String c rest => is_continuation c && continuation_only rest
  | EmptyString => true
  end.

Definition whole (ch : string) : bool :=
  match ch with
  | String c rest => continuation_only rest
  | EmptyString => false
  end.

Definition starts (ch : string) : bool := whole ch && negb (continues ch).

Definition well_formed (l : list string) : Prop :=
  match l with
  | ch :: tl => whole ch = true ∧ Forall (λ x, starts x = true) tl
  | [] => True
  end.

End Text.

(** ** handlers.py, bot.py: accounts *)

Module Account.
Import Store Sql Handlers Registry Text.

Inductive AccountReply :=
| TrainingOffer     (* show_training_offer *)
| Blocked           (* "Ваш аккаунт заблокирован." *)
| MainMenu          (* show_main_menu *)
| PhoneInvalid      (* "Неверный формат." *)
| PhoneSaved.       (* "Телефон сохранён!" *)

(** [start], handlers.py 84-130.  A new user gets a row with the defaults
    of the table and [last_active] set (the other columns of the INSERT,
    the user name, the last name and the registration date, are written
    here only and left out); for a known user [last_active] is written
    before anything else is looked at. *)
Definition start (now : Timestamp) (user_id : Z) (name : string) (db : DB)
    : AccountReply * DB :=
  match get_user db user_id with
  | None =>
      let db1 :=
        set_users
          (insert user_id (mkUser name None "passenger" 0 (Some (5 # 1)) 0 0 (Some now)))
          db in
      (TrainingOffer, log_action now user_id "register" db1)
  | Some existing =>
      let db1 := set_users (alter (user_set_active now) user_id) db in
      if negb (is_blocked existing =? 0) then (Blocked, db1)
      else if training_completed existing =? 0 then (TrainingOffer, db1)
      else (MainMenu, db1)
  end.

(** [SET phone = ?] *)
Definition user_set_phone (token : string) (u : User) : User :=
  mkUser (first_name u) (Some token) (role u) (is_blocked u) (rating u)
         (trips_count u) (training_completed u) (last_active u).

(** [encrypt_phone], utils.py 19-27.  [cipher] is the Fernet object of the
    module, [None] when its construction failed; its [encrypt] yields
    [None] when it raises. *)
Definition encrypt_phone (cipher : option (string → option string)) (phone : string)
    : string :=
  match cipher with
  | Some encrypt => if String.eqb phone "" then "" else default "" (encrypt phone)
  | None => ""
  end.

(** [set_phone_complete], handlers.py 275-305. *)
Definition set_phone_complete (cipher : option (string → option string))
    (now : Timestamp) (user_id : Z) (text : string) (db : DB) : AccountReply * DB :=
  let phone := strip text in
  if negb (validate_phone phone) then (PhoneInvalid, db)
  else
    let encrypted := encrypt_phone cipher phone in
    let db1 := set_users (alter (user_set_phone encrypted) user_id) db in
    (PhoneSaved, log_action now user_id "set_phone" db1).

(** The users with the role ['admin'], as [main] reads them. *)
Definition admin_users (db : DB) : list Z :=
  omap (λ ku : Z * User, if String.eqb (role ku.2) "admin" then Some ku.1 else None)
       (map_to_list (users db)).

(** [main], bot.py 74-79: the operators of the database are appended to
    the configured list, each one once. *)
Definition load_admins (ADMINS : list Z) (db : DB) : list Z :=
  foldl (λ acc u, if bool_decide (u ∈ acc) then acc else acc ++ [u]) ADMINS (admin_users db).

End Account.

(** ** database.py: the settings table *)

Module Settings.
Import Store.

(** A row of [settings]. *)
Record Setting := mkSetting {
  value : option string;
  updated_at : Timestamp;          (* DEFAULT CURRENT_TIMESTAMP *)
  updated_by : option Z
}.

(** [INSERT OR IGNORE INTO settings (key, value)] for every entry of
    [config.DEFAULT_SETTINGS], database.py 151-155. *)
Definition insert_default (now : Timestamp) (t : gmap string Setting) (kv : string * string)
    : gmap string Setting :=
  match t !! kv.1 with
  | Some _ => t
  | None => <[kv.1 := mkSetting (Some kv.2) now None]> t
  end.

Definition init_settings (DEFAULT_SETTINGS : list (string * string)) (now : Timestamp)
    (t : gmap string Setting) : gmap string Setting :=
  foldl (insert_default now) t DEFAULT_SETTINGS.

(** [get_setting], database.py 207-214. *)
Definition get_setting (key : string) (t : gmap string Setting) : option string :=
  match t !! key with
  | Some row => value row
  | None => None
  end.

(** [update_setting], database.py 216-221. *)
Definition update_setting (now : Timestamp) (key v : string) (by_user : Z)
    (t : gmap string Setting) : gmap string Setting :=
  alter (λ _, mkSetting (Some v) now (Some by_user)) key t.

End Settings.

(** ** Reviews and ratings in range *)

Module Ratings.
Import Store.

Definition in_range (q : Q) : Prop := (1 <= q)%Q ∧ (q <= 5)%Q.

(** Every stored review carries a rating from 1 to 5. *)
Definition reviews_ok (db : DB) : Prop :=
  Forall (λ r, 1 ≤ review_rating r ≤ 5) (reviews db).

(** Every user's rating is NULL or from 1 to 5. *)
Definition table_ok (m : gmap Z User) : Prop :=
  ∀ u usr q, m !! u = Some usr → rating usr = Some q → in_range q.

Definition ratings_ok (db : DB) : Prop := table_ok (users db).

End Ratings.

(** ** Every handler that writes the database *)

Module System.
Import Store Lifecycle Account.

(** One update the bot handles: a call of one of the handlers of
    [Lifecycle.Op], the command [/start], or the text that answers the
    request for a telephone number.  Between them these are all the
    INSERT and UPDATE statements of handlers.py. *)
Inductive Event :=
| Handler (op : Op)
| Start (now : Timestamp) (user_id : Z) (name : string)
| SetPhone (now : Timestamp) (user_id : Z) (text : string).

Section Config.
Variable DISTANCES : gmap (string * string) Z.
Variable CAR_CLASSES : gmap string Pricing.CarInfo.
Variable ADMINS : list Z.
Variable cipher : option (string → option string).

Definition handle (e : Event) (db : DB) : DB :=
  match e with
  | Handler op => step DISTANCES CAR_CLASSES ADMINS op db
  | Start now u name => (start now u name db).2
  | SetPhone now u text => (set_phone_complete cipher now u text db).2
  end.

Definition handle_all (events : list Event) (db : DB) : DB :=
  foldl (λ d e, handle e d) db events.
End Config.

(** What the handlers leave of a user's row: the user stays, and so do
    the name and the blocking flag; the role stays or becomes
    ['driver']. *)
Definition user_kept (old new : User) : Prop :=
  first_name new = first_name old ∧ is_blocked new = is_blocked old ∧
  (role new = role old ∨ role new = "driver").

(** A row as [/start] or a later handler leaves it for a user who was not
    in the table. *)
Definition user_fresh (new : User) : Prop :=
  is_blocked new = 0 ∧ (role new = "passenger" ∨ role new = "driver").

Definition table_kept (m m' : gmap Z User) : Prop :=
  ∀ u, match m !! u, m' !! u with
       | Some old, Some new => user_kept old new
       | Some _, None => False
       | None, Some new => user_fresh new
       | None, None => True
       end.

Definition users_kept (db db' : DB) : Prop := table_kept (users db) (users db').

End System.

(** ** A day of the service, for the examples *)

Module Scenario.
Import Store Handlers Lifecycle System.

Definition roads : gmap (string * string) Z := Pricing.one_road 360.
Definition classes : gmap string Pricing.CarInfo := Pricing.one_class.
Definition operators : list Z := [9].

(** A cipher that puts the number between brackets. *)
Definition cipher : option (string → option string) :=
  Some (λ phone, Some (String.append "<" (String.append phone ">"))).

Definition from_kazan : Session :=
  mkSession (Some "Kazan") None None None ∅ None None None.

Definition form_of (name : string) : Session :=
  mkSession None None None None ∅ (Some name) (Some "Lada Vesta") (Some "A123BB77").

Definition timer_from_100 : Session :=
  mkSession None None None None {[ "t1" := 100 ]} None None None.

(** Anna (1) arrives and leaves her number; Boris (2) and Vera (3) arrive
    and apply as drivers; operator 9 verifies Boris. *)
Definition arrivals : list Event :=
  [Start 1 1 "Anna"; SetPhone 2 1 "+79991234567";
   Start 3 2 "Boris"; Handler (OpRegister 4 2 (Some 7) (form_of "Boris B"));
   Start 5 3 "Vera"; Handler (OpRegister 6 3 (Some 2) (form_of "Vera V"));
   Handler (OpVerify 7 9 2)].

(** Anna orders Kazan - Samara; Boris accepts and starts the trip. *)
Definition ride : list Event :=
  [Handler (OpCreate 10 1 "t1" "Samara" from_kazan);
   Handler (OpAccept 20 2 "t1");
   Handler (OpStart 30 2 "t1")].

(** The waiting timer that started at instant 100 is stopped at 460, six
    minutes later. *)
Definition wait : list Event := [Handler (OpStopWaiting 460 "t1" timer_from_100)].

Definition completion : list Event := [Handler (OpComplete 500 2 "t1")].

(** Operator 9 rejects Boris. *)
Definition rejection : list Event := [Handler (OpReject 600 9 2)].

(** The database after the events, starting from the empty one. *)
Definition after (events : list Event) : DB :=
  handle_all roads classes operators cipher events empty_db.

End Scenario.

(** * Properties *)

(** ** The pricing engine *)

Section PricingFacts.
Import Pricing.

Lemma waiting_charge_step (m : Z) :
  calculate_waiting_charge (m + 1) - calculate_waiting_charge m = minute_rate (m + 1).
Proof.
  unfold calculate_waiting_charge, minute_rate.
  repeat case_match; lia.
Qed.

Lemma waiting_charge_monotone (m n : Z) :
  m ≤ n → calculate_waiting_charge m ≤ calculate_waiting_charge n.
Proof.
  unfold calculate_waiting_charge. intros Hmn.
  repeat case_match; lia.
Qed.

Lemma waiting_charge_nonneg (m : Z) : 0 ≤ calculate_waiting_charge m.
Proof. unfold calculate_waiting_charge. repeat case_match; lia. Qed.

(** C2.  The waiting charge takes the six values the specification lists;
    for every number of minutes it is 0 up to 2, [3 (m - 2)] up to 5,
    [9 + 4 (m - 5)] up to 7 and [17 + 5 (m - 7)] beyond; and it accumulates
    minute by minute at the rate of the tier the minute falls in, so that
    no minute is charged twice or skipped at a tier boundary. *)
Theorem waiting_charge_tiers :
  calculate_waiting_charge 0 = 0 ∧ calculate_waiting_charge 2 = 0 ∧
  calculate_waiting_charge 3 = 3 ∧ calculate_waiting_charge 5 = 9 ∧
  calculate_waiting_charge 7 = 17 ∧ calculate_waiting_charge 10 = 32 ∧
  (∀ m : Z,
     (m ≤ 2 → calculate_waiting_charge m = 0) ∧
     (2 < m ≤ 5 → calculate_waiting_charge m = 3 * (m - 2)) ∧
     (5 < m ≤ 7 → calculate_waiting_charge m = 9 + 4 * (m - 5)) ∧
     (7 < m → calculate_waiting_charge m = 17 + 5 * (m - 7))) ∧
  (∀ m : Z,
     calculate_waiting_charge (m + 1) = calculate_waiting_charge m + minute_rate (m + 1)).
Proof.
  do 6 (split; [reflexivity |]).
  split.
  - intros m. unfold calculate_waiting_charge.
    repeat split; intros H; repeat case_match; lia.
  - intros m. pose proof (waiting_charge_step m). lia.
Qed.

(** The tiers at six minutes: three minutes at 3 and one at 4. *)
Lemma waiting_charge_tiers_witness :
  calculate_waiting_charge 6 = 9 + 4 * (6 - 5).
Proof.
  destruct waiting_charge_tiers as (_ & _ & _ & _ & _ & _ & Htiers & _).
  destruct (Htiers 6) as (_ & _ & H & _).
  apply H. lia.
Defined.

Lemma calculate_price_distance T C a b cls :
  calculate_price T C a b cls =
  match (economy ← C !! "economy";
         let car_info := default economy (C !! cls) in
         base_km ← base_price car_info;
         floor ← min_price car_info;
         units ← py_round_div (60 + looked_up T a b * base_km) 50;
         Some (Z.max floor (units * 50))) with
  | Some p => (p, looked_up T a b)
  | None => (500, 400)
  end.
Proof. reflexivity. Qed.

Lemma looked_up_sym T a b : pair_undirected T a b → looked_up T a b = looked_up T b a.
Proof.
  intros (Hab & Hba & Hboth). unfold looked_up.
  destruct (T !! (a, b)) as [d1|] eqn:E1, (T !! (b, a)) as [d2|] eqn:E2; simpl.
  - assert (d1 ≠ 0) by congruence. assert (d2 ≠ 0) by congruence.
    rewrite (Hboth d1 d2 eq_refl eq_refl).
    destruct (d2 =? 0) eqn:E; [lia | done].
  - assert (d1 ≠ 0) by congruence.
    destruct (d1 =? 0) eqn:E; [lia | done].
  - assert (d2 ≠ 0) by congruence.
    destruct (d2 =? 0) eqn:E; [lia | done].
  - done.
Qed.

(** C8, as the code has it.  When no stored distance of the pair is zero
    and the two orders, where both are stored, hold the same distance,
    the price and the distance do not depend on the order of the cities,
    for every class and every pair of tables; and the result is a function
    of the tables and the arguments alone. *)
Theorem calculate_price_symmetric T C a b cls :
  pair_undirected T a b →
  calculate_price T C a b cls = calculate_price T C b a cls ∧
  (∀ T' C' a' b' cls',
     T' = T → C' = C → a' = a → b' = b → cls' = cls →
     calculate_price T' C' a' b' cls' = calculate_price T C a b cls).
Proof.
  intros Hu. split.
  - rewrite !calculate_price_distance, (looked_up_sym T a b Hu). done.
  - by intros ? ? ? ? ? -> -> -> -> ->.
Qed.

(** One road of 360 km, asked for in the order that is not stored. *)
Lemma calculate_price_symmetric_witness :
  pair_present (one_road 360) "Samara" "Kazan" ∧
  calculate_price (one_road 360) one_class "Samara" "Kazan" "economy" = (3650, 360) ∧
  calculate_price (one_road 360) one_class "Samara" "Kazan" "economy" =
  calculate_price (one_road 360) one_class "Kazan" "Samara" "economy".
Proof.
  split; [right; by eexists |].
  split; [by vm_compute |].
  refine (proj1 (calculate_price_symmetric
                   (one_road 360) one_class "Samara" "Kazan" "economy" _)).
  repeat split; by vm_compute.
Defined.

(** C8 fails as stated.  A stored distance of 0 is read as a missing
    entry: in one order the lookup falls through to the default 400, in
    the other it finds the 0.  And a table that stores both orders with
    different distances gives each order its own. *)
Lemma calculate_price_not_symmetric :
  (pair_present (one_road 0) "Kazan" "Samara" ∧
   calculate_price (one_road 0) one_class "Kazan" "Samara" "economy" = (4050, 400) ∧
   calculate_price (one_road 0) one_class "Samara" "Kazan" "economy" = (300, 0)) ∧
  (let both := <[ ("Samara", "Kazan") := 200 ]> (one_road 100) in
   pair_present both "Kazan" "Samara" ∧
   calculate_price both one_class "Kazan" "Samara" "economy" = (1050, 100) ∧
   calculate_price both one_class "Samara" "Kazan" "economy" = (2050, 200)).
Proof.
  split.
  - split; [left; by eexists |]. split; by vm_compute.
  - split; [left; by eexists |]. split; by vm_compute.
Qed.

End PricingFacts.

(** ** The trip state machine *)

Section LifecycleFacts.
Import Store Sql Handlers Registry Lifecycle.

Lemma get_trip_in_Some st db tid t :
  get_trip_in st db tid = Some t ↔ trips db !! tid = Some t ∧ status t = st.
Proof.
  unfold get_trip_in. destruct (trips db !! tid) as [t'|]; [| by split; [| intros []]].
  destruct (decide (status t' = st)) as [Hst | Hst].
  - split; [by intros [= <-] | by intros [[= <-] _]].
  - split; [done | intros [[= <-] ?]; done].
Qed.

Lemma get_trip_in_None st db tid :
  get_trip_in st db tid = None ↔ ∀ t, trips db !! tid = Some t → status t ≠ st.
Proof.
  unfold get_trip_in. destruct (trips db !! tid) as [t'|]; [| done].
  destruct (decide (status t' = st)) as [Hst | Hst].
  - split; [done | intros H; by destruct (H t' eq_refl)].
  - split; [by intros _ t [= <-] | done].
Qed.

Lemma get_trip_in_found st db tid t :
  trips db !! tid = Some t → status t = st → get_trip_in st db tid = Some t.
Proof. intros. by apply get_trip_in_Some. Qed.

(** *** Invariants of the rows of [trips] *)

Lemma trips_all_alter P f tid db :
  trips_all P db →
  (∀ t, trips db !! tid = Some t → P t → P (f t)) →
  trips_all P (set_trips (alter f tid) db).
Proof.
  intros Hall Hf id t'. simpl.
  destruct (decide (tid = id)) as [<- | Hne].
  - rewrite lookup_alter_eq.
    destruct (trips db !! tid) as [t|] eqn:E; simpl; [| done].
    intros [= <-]. apply Hf; [done |]. by apply (Hall tid).
  - rewrite lookup_alter_ne by done. apply Hall.
Qed.

Lemma trips_all_insert P tid t db :
  trips_all P db → P t → trips_all P (set_trips (insert tid t) db).
Proof.
  intros Hall Ht id t'. simpl.
  destruct (decide (tid = id)) as [<- | Hne].
  - rewrite lookup_insert_eq. by intros [= <-].
  - rewrite lookup_insert_ne by done. apply Hall.
Qed.

Lemma trips_all_same P db db' : trips db' = trips db → trips_all P db → trips_all P db'.
Proof. unfold trips_all. by intros ->. Qed.

Section StepPreserves.
Variable P : Trip → Prop.
Hypothesis P_created : ∀ now u a b p,
  P (mkTrip u None a b p "economy" searching now
            None None None None None (Some 0) (Some 0) None).
Hypothesis P_accepted : ∀ d now t,
  status t = searching → P t → P (trip_set_accepted d now t).
Hypothesis P_started : ∀ now t,
  status t = accepted → P t → P (trip_set_started now t).
Hypothesis P_waiting : ∀ m c t, P t → P (trip_set_waiting m c t).
Hypothesis P_completed : ∀ now final t,
  status t = started → P t → P (trip_set_completed now final t).

Lemma accept_trip_preserves now d tid db :
  trips_all P db → trips_all P (accept_trip now d tid db).2.
Proof.
  intros Hall. unfold accept_trip.
  destruct (get_trip_in searching db tid) as [t|] eqn:Eg; [| done].
  apply get_trip_in_Some in Eg as [Ht Hst].
  destruct (get_driver db d) as [drv|]; [| done].
  destruct (verified drv =? 0); [done |].
  assert (trips_all P (update_trip_accepted now d tid db)) as Hup.
  { unfold update_trip_accepted. destruct (users db !! d); [| done].
    apply trips_all_alter; [done |].
    intros t' Ht' HP. apply P_accepted; [congruence | done]. }
  by case_match.
Qed.

Lemma start_trip_preserves now u tid db :
  trips_all P db → trips_all P (start_trip now u tid db).2.
Proof.
  intros Hall. unfold start_trip.
  destruct (get_trip_in accepted db tid) as [t|] eqn:Eg; [| done].
  apply get_trip_in_Some in Eg as [Ht Hst]. simpl.
  apply trips_all_alter; [done |].
  intros t' Ht' HP. apply P_started; [congruence | done].
Qed.

Lemma stop_waiting_preserves now tid s db :
  trips_all P db → trips_all P (stop_waiting now tid s db).1.2.
Proof.
  intros Hall. unfold stop_waiting.
  destruct (waiting_start s !! tid); [| done]. simpl.
  apply trips_all_alter; [done |]. intros t' _ HP. by apply P_waiting.
Qed.

Lemma complete_trip_preserves now u tid db :
  trips_all P db → trips_all P (complete_trip now u tid db).2.
Proof.
  intros Hall. unfold complete_trip.
  destruct (get_trip_in started db tid) as [t|] eqn:Eg.
  - apply get_trip_in_Some in Eg as [Ht Hst]. simpl.
    eapply trips_all_same; [| apply (trips_all_alter P
      (trip_set_completed now (price t + default 0 (waiting_charge t))) tid db Hall)].
    + by destruct (driver_id t).
    + intros t' Ht' HP. apply P_completed; [congruence | done].
  - destruct (get_trip db tid); [case_decide |]; done.
Qed.

Lemma trip_confirm_preserves D C now u tid to s db :
  trips_all P db → trips_all P (trip_confirm D C now u tid to s db).1.2.
Proof.
  intros Hall. unfold trip_confirm.
  destruct (negb (nonempty (trip_from s)) || String.eqb to ""); [done |].
  destruct (get_user db u) as [usr|] eqn:Eu; [| done].
  destruct (negb (nonempty (phone usr))); [done |].
  destruct (Pricing.calculate_price D C (default "" (trip_from s)) to "economy")
    as [p dist]. simpl.
  unfold insert_trip.
  destruct (trips db !! tid); [done |].
  destruct (users db !! u); [| done].
  by apply trips_all_insert.
Qed.

Lemma save_review_trips now u text s db :
  trips (save_review now u text s db).1 = trips db.
Proof.
  unfold save_review.
  destruct (negb (nonempty (review_trip s)) || negb (Pricing.truthy (pending_rating s)));
    [done |].
  destruct (get_trip db (default "" (review_trip s))) as [t|]; [| done]. simpl.
  unfold update_rating, insert_review.
  destruct (review_addressee u t); [| done].
  simpl. by case_match.
Qed.

Lemma driver_experience_trips now u parsed s db :
  trips (driver_experience now u parsed s db).1.2 = trips db.
Proof.
  unfold driver_experience.
  destruct parsed as [years|]; [| done].
  destruct ((years <? 0) || (70 <? years)); [done |].
  destruct (driver_full_name s), (driver_car_model s), (driver_car_number s);
    try done.
  simpl. unfold insert_driver. by repeat case_match.
Qed.

Lemma step_preserves D C A op db :
  trips_all P db → trips_all P (step D C A op db).
Proof.
  intros Hall. destruct op; simpl.
  - by apply trip_confirm_preserves.
  - by apply accept_trip_preserves.
  - by apply start_trip_preserves.
  - by apply stop_waiting_preserves.
  - by apply complete_trip_preserves.
  - eapply trips_all_same; [apply save_review_trips | done].
  - eapply trips_all_same; [apply driver_experience_trips | done].
  - unfold admin_verify_driver. by case_match.
  - unfold admin_reject_driver. by case_match.
  - done.
  - done.
  - done.
Qed.

Lemma run_preserves D C A ops db :
  trips_all P db → trips_all P (run D C A ops db).
Proof.
  unfold run. revert db.
  induction ops as [| op ops IH]; intros db Hall; simpl; [done |].
  apply IH. by apply step_preserves.
Qed.

(** [/start] and the telephone entry write [users] and [logs] only. *)
Lemma handle_preserves D C A cipher e db :
  trips_all P db → trips_all P (System.handle D C A cipher e db).
Proof.
  intros Hall. destruct e as [op | now u name | now u text]; simpl.
  - by apply step_preserves.
  - eapply trips_all_same; [| done]. unfold Account.start. by repeat case_match.
  - eapply trips_all_same; [| done]. unfold Account.set_phone_complete. by case_match.
Qed.

Lemma handle_all_preserves D C A cipher evs db :
  trips_all P db → trips_all P (System.handle_all D C A cipher evs db).
Proof.
  unfold System.handle_all. revert db.
  induction evs as [| e evs IH]; intros db Hall; simpl; [done |].
  apply IH. by apply handle_preserves.
Qed.
End StepPreserves.

End LifecycleFacts.

Section TransitionFacts.
Import Store Sql Handlers Registry Lifecycle Examples.

(** *** complete *)

Lemma complete_trip_eq now actor tid db t :
  trips db !! tid = Some t → status t = started →
  complete_trip now actor tid db =
  (CompleteOk (price t + default 0 (waiting_charge t)),
   log_action now actor "complete_trip"
     (incr_trips_count (driver_id t)
        (incr_trips_count (Some (passenger_id t))
           (update_trip_completed now (price t + default 0 (waiting_charge t)) tid db)))).
Proof.
  intros Ht Hst. unfold complete_trip.
  by rewrite (get_trip_in_found started db tid t Ht Hst).
Qed.

Lemma complete_trip_trips now actor tid db t :
  trips db !! tid = Some t → status t = started →
  trips (complete_trip now actor tid db).2 =
  alter (trip_set_completed now (price t + default 0 (waiting_charge t))) tid (trips db).
Proof.
  intros Ht Hst. rewrite (complete_trip_eq now actor tid db t Ht Hst). simpl.
  by destruct (driver_id t).
Qed.

Lemma complete_trip_counts now actor tid db t u usr :
  trips db !! tid = Some t → status t = started → users db !! u = Some usr →
  trips_count <$> users (complete_trip now actor tid db).2 !! u =
  Some (trips_count usr + parts_in u t).
Proof.
  intros Ht Hst Hu. rewrite (complete_trip_eq now actor tid db t Ht Hst).
  unfold parts_in. simpl.
  assert (trips_count <$> alter user_incr_trips (passenger_id t) (users db) !! u =
          Some (trips_count usr + (if bool_decide (u = passenger_id t) then 1 else 0)))
    as Hp.
  { destruct (decide (u = passenger_id t)) as [-> | Hne].
    - rewrite bool_decide_eq_true_2 by done. by rewrite lookup_alter_eq, Hu.
    - rewrite bool_decide_eq_false_2 by done.
      rewrite lookup_alter_ne by done. rewrite Hu. simpl. f_equal. lia. }
  destruct (decide (driver_id t = Some u)) as [Ed | Ed].
  - rewrite Ed. simpl. rewrite (bool_decide_eq_true_2 (Some u = Some u)) by done.
    rewrite lookup_alter_eq.
    destruct (alter user_incr_trips (passenger_id t) (users db) !! u) as [usr'|];
      simpl in *; [| done].
    injection Hp as Hp. f_equal. lia.
  - rewrite (bool_decide_eq_false_2 (driver_id t = Some u)) by done.
    destruct (driver_id t) as [d|]; simpl.
    + rewrite lookup_alter_ne by congruence. rewrite Hp. f_equal. lia.
    + rewrite Hp. f_equal. lia.
Qed.

(** The five statements that write [trips] keep a row's final price in
    step with its status. *)
Lemma price_settled_created now u a b p :
  price_settled (mkTrip u None a b p "economy" searching now
                        None None None None None (Some 0) (Some 0) None).
Proof. split; [by intros [? ?] | done]. Qed.

Lemma price_settled_accepted d now t :
  status t = searching → price_settled t → price_settled (trip_set_accepted d now t).
Proof.
  intros Hst [H1 H2]. split; [| done]. simpl.
  intros Hf. specialize (H1 Hf). congruence.
Qed.

Lemma price_settled_started now t :
  status t = accepted → price_settled t → price_settled (trip_set_started now t).
Proof.
  intros Hst [H1 H2]. split; [| done]. simpl.
  intros Hf. specialize (H1 Hf). congruence.
Qed.

Lemma price_settled_waiting m c t :
  price_settled t → price_settled (trip_set_waiting m c t).
Proof. done. Qed.

Lemma price_settled_completed now final t :
  status t = started → price_settled t → price_settled (trip_set_completed now final t).
Proof. intros _ _. split; [done | by eexists]. Qed.

Create HintDb trip_rows.
#[local] Hint Resolve price_settled_created price_settled_accepted
  price_settled_started price_settled_waiting price_settled_completed : trip_rows.

Lemma trips_all_empty P : trips_all P empty_db.
Proof. intros id t Hl. simpl in Hl. by rewrite lookup_empty in Hl. Qed.



End TransitionFacts.

Section GuardFacts.
Import Store Sql Handlers Registry Lifecycle Examples.

(** *** Transitions from the wrong status *)

(** C4.  A trip that is not in the status the transition requires
    (searching for accept, accepted for start, started for complete) is
    answered with one of the "not available" replies, and the whole
    database, the trip's row included, is what it was. *)
Theorem transition_needs_prior_status now tr tid db t :
  trips db !! tid = Some t → status t ≠ required_status tr →
  ∃ r, apply_transition now tr tid db = (r, db) ∧ benign r.
Proof.
  intros Ht Hst.
  assert (get_trip_in (required_status tr) db tid = None) as Hnone.
  { apply get_trip_in_None. intros t' Ht'. congruence. }
  destruct tr as [d | a | a]; simpl in *.
  - exists AcceptUnavailable. unfold accept_trip. rewrite Hnone.
    split; [done | by left].
  - exists StartRefused. unfold start_trip. rewrite Hnone.
    split; [done | right; by left].
  - unfold complete_trip, get_trip. rewrite Hnone, Ht.
    case_decide.
    + exists CompleteAlready. split; [done | right; right; by left].
    + exists CompleteRefused. split; [done | right; right; by right].
Qed.

(** [complete] on a searching trip. *)
Lemma transition_needs_prior_status_witness :
  ∃ r, complete_trip 5 1 "t1" db_searching = (r, db_searching) ∧ benign r.
Proof.
  apply (transition_needs_prior_status 5 (TComplete 1) "t1" db_searching
           (a_trip None searching None)).
  - by vm_compute.
  - by vm_compute.
Defined.

(** *** start *)

(** C6 fails as stated: user 4, neither the passenger (1) nor the driver
    (2) of the accepted trip, starts it. *)
Lemma start_trip_by_bystander :
  (passenger_id <$> trips db_accepted !! "t1") = Some 1 ∧
  (driver_id <$> trips db_accepted !! "t1") = Some (Some 2) ∧
  (start_trip 7 4 "t1" db_accepted).1 = StartOk ∧
  (status <$> trips (start_trip 7 4 "t1" db_accepted).2 !! "t1") = Some started.
Proof. repeat split; by vm_compute. Qed.

(** C6, as the code has it.  [start_trip] looks at the status alone:
    whoever the actor is, an accepted trip becomes started and gets its
    start time, every other column of the row and every other row and
    table staying as it was; and a trip in any other status, or no trip,
    gets the refusal and the database stays as it was. *)
Theorem start_trip_guard now actor tid db :
  (∀ t, trips db !! tid = Some t → status t = accepted →
     let r := start_trip now actor tid db in
     r.1 = StartOk ∧
     trips r.2 =
       <[tid := mkTrip (passenger_id t) (driver_id t) (from_city t) (to_city t) (price t)
                       (car_class t) started (created_at t) (accepted_at t) (Some now)
                       (completed_at t) (cancelled_by t) (cancel_reason t)
                       (waiting_minutes t) (waiting_charge t) (final_price t)]>
         (trips db) ∧
     users r.2 = users db ∧ drivers r.2 = drivers db ∧
     reviews r.2 = reviews db ∧ logs r.2 = logs db) ∧
  ((∀ t, trips db !! tid = Some t → status t ≠ accepted) →
     start_trip now actor tid db = (StartRefused, db)).
Proof.
  split.
  - intros t Ht Hst r. subst r. unfold start_trip.
    rewrite (get_trip_in_found accepted db tid t Ht Hst). simpl.
    repeat split.
    apply map_eq. intros id. destruct (decide (tid = id)) as [<- | Hne].
    + by rewrite lookup_alter_eq, lookup_insert_eq, Ht.
    + by rewrite lookup_alter_ne, lookup_insert_ne.
  - intros Hno. unfold start_trip.
    by rewrite (proj2 (get_trip_in_None accepted db tid) Hno).
Qed.

(** The trip Boris accepted at instant 20 is started by Anna at instant
    30; a second start is refused. *)
Lemma start_trip_guard_witness :
  let before :=
    Scenario.after
      (Scenario.arrivals ++
       [System.Handler (OpCreate 10 1 "t1" "Samara" Scenario.from_kazan);
        System.Handler (OpAccept 20 2 "t1")]) in
  let r := start_trip 30 1 "t1" before in
  r.1 = StartOk ∧
  trips r.2 !! "t1" =
    Some (mkTrip 1 (Some 2) "Kazan" "Samara" 3650 "economy" started 10 (Some 20) (Some 30)
                 None None None (Some 0) (Some 0) None) ∧
  users r.2 = users before ∧
  start_trip 31 1 "t1" r.2 = (StartRefused, r.2).
Proof.
  intros before r.
  destruct (proj1 (start_trip_guard 30 1 "t1" before)
              (mkTrip 1 (Some 2) "Kazan" "Samara" 3650 "economy" accepted 10 (Some 20)
                      None None None None (Some 0) (Some 0) None))
    as (H1 & H2 & H3 & _); [by vm_compute | done |].
  fold r in H1, H2, H3.
  split; [exact H1 |]. split; [| split; [exact H3 |]].
  - rewrite H2. by rewrite lookup_insert_eq.
  - apply (proj2 (start_trip_guard 31 1 "t1" r.2)).
    intros t Ht. rewrite H2, lookup_insert_eq in Ht. by injection Ht as <-.
Defined.

End GuardFacts.

(** ** accept under concurrent attempts *)

Section RaceFacts.
Import Store Sql Handlers Registry Lifecycle Race Examples.

(** The stretches of one attempt, run without another attempt in between,
    are the handler [accept_trip]. *)
Lemma accept_alone_is_accept_trip now d tid db :
  accept_alone now d tid db =
  (pc_done (accept_trip now d tid db).1, (accept_trip now d tid db).2).
Proof.
  unfold accept_alone, accept_trip. simpl. unfold accept_body.
  destruct (get_trip_in searching db tid) as [t|]; [| done].
  destruct (get_driver db d) as [drv|]; [| done].
  destruct (verified drv =? 0); [done |]. simpl.
  by destruct (get_user _ (passenger_id t)).
Qed.

Lemma won_never (l : list Attempt) :
  (∀ j a, l !! j = Some a → won a = false) → List.filter won l = [].
Proof.
  induction l as [|x l IH]; intros Hnone; simpl; [done |].
  rewrite (Hnone 0%nat x eq_refl). apply IH.
  intros j a Hl. by apply (Hnone (S j) a).
Qed.

Lemma won_once (l : list Attempt) : ∀ i,
  (∀ j a, j ≠ i → l !! j = Some a → won a = false) →
  (length (List.filter won l) ≤ 1)%nat.
Proof.
  induction l as [|x l IH]; intros i Hothers; simpl; [lia |].
  destruct i as [|i].
  - rewrite (won_never l).
    + destruct (won x); simpl; lia.
    + intros j a Hl. by apply (Hothers (S j) a).
  - rewrite (Hothers 0%nat x) by done.
    apply (IH i). intros j a Hj Hl. apply (Hothers (S j) a); [lia | done].
Qed.

Lemma pending_not_won a : pending a → won a = false.
Proof. unfold pending, won. by intros [-> | ->]. Qed.

Section OneTrip.
Variable tid : string.
Variable t : Trip.
Variable attempts : list (Timestamp * Z).
Variable db0 : DB.
Hypothesis Ht : trips db0 !! tid = Some t.
Hypothesis Hst : status t = searching.
Hypothesis Hp : is_Some (users db0 !! passenger_id t).
Hypothesis Hv : Forall (λ a, verified_driver db0 a.2) attempts.

Lemma race_inv_start : race_inv tid t attempts db0 (fresh <$> attempts, db0).
Proof.
  split; [| split; [done | split; [done |]]].
  - simpl.
    assert (∀ l : list (Timestamp * Z),
              (λ a, (at_now a, at_driver a)) <$> (fresh <$> l) = l) as Hl.
    { induction l as [|[now d] l IH]; [done |]. by rewrite !fmap_cons, IH. }
    apply Hl.
  - left. split; [done |]. simpl.
    apply Forall_fmap, Forall_true. intros a. by left.
Qed.

Lemma race_inv_step st i :
  race_inv tid t attempts db0 st → race_inv tid t attempts db0 (sched_step tid st i).
Proof.
  destruct st as [atts db]. intros (Hatt & Hu & Hd & Hcases).
  unfold sched_step. simpl in *.
  destruct (atts !! i) as [a|] eqn:Ei; [| by repeat split].
  assert (∀ pc, (λ a, (at_now a, at_driver a)) <$>
                <[i := mkAttempt (at_now a) (at_driver a) pc]> atts = attempts) as Hkeep.
  { intros pc. rewrite list_fmap_insert. simpl. rewrite Hatt.
    apply list_insert_id. rewrite <- Hatt. by rewrite list_lookup_fmap, Ei. }
  assert (verified_driver db0 (at_driver a)) as Hva.
  { assert (attempts !! i = Some (at_now a, at_driver a)) as Hai.
    { rewrite <- Hatt. by rewrite list_lookup_fmap, Ei. }
    rewrite Forall_lookup in Hv. apply (Hv i _ Hai). }
  destruct Hcases as [[Htr Hpend] | (i0 & w & Hw & Hwon & Hpc & Htr & Hothers)].
  - (* nobody has run the SELECT yet *)
    assert (pending a) as Ha by (rewrite Forall_lookup in Hpend; by apply (Hpend i)).
    destruct Ha as [Ha | Ha]; rewrite Ha; simpl.
    + split; [apply Hkeep | split; [done | split; [done |]]].
      left. split; [done |]. apply Forall_insert; [done | by right].
    + unfold accept_body, get_trip_in, get_driver. rewrite Htr, Ht.
      rewrite decide_True by done.
      destruct Hva as [(drv & Hdrv & Hver) [usr Husr]].
      rewrite Hd, Hdrv, Hver. simpl.
      unfold update_trip_accepted. rewrite Hu, Husr.
      split; [apply Hkeep | split; [done | split; [done |]]].
      right. exists i, (mkAttempt (at_now a) (at_driver a) (pc_notify t)).
      split; [apply list_lookup_insert_eq; by eapply lookup_lt_Some |].
      split; [done |]. split; [by left |]. split.
      * simpl. rewrite Htr. apply map_eq. intros k.
        destruct (decide (tid = k)) as [<- | Hne].
        -- by rewrite lookup_alter_eq, lookup_insert_eq, Ht.
        -- by rewrite lookup_alter_ne, lookup_insert_ne.
      * intros j b Hj Hb. cbn [fst snd] in Hb. rewrite list_lookup_insert_ne in Hb by done.
        left. rewrite Forall_lookup in Hpend. by apply (Hpend j).
  - (* attempt [i0] has taken the trip *)
    destruct (decide (i = i0)) as [-> | Hne].
    + rewrite Hw in Ei. injection Ei as <-.
      assert (accept_step (at_now w) (at_driver w) tid (at_pc w) db =
              (pc_done AcceptOk, db)) as ->.
      { destruct Hpc as [-> | ->]; simpl; [| done].
        unfold get_user. rewrite Hu. by destruct Hp as [usr ->]. }
      split; [apply Hkeep | split; [done | split; [done |]]].
      right. exists i0, (mkAttempt (at_now w) (at_driver w) (pc_done AcceptOk)).
      split; [apply list_lookup_insert_eq; by eapply lookup_lt_Some |].
      split; [done |]. split; [by right |]. split; [done |].
      intros j b Hj Hb. cbn [fst snd] in Hb. rewrite list_lookup_insert_ne in Hb by done.
      by apply (Hothers j).
    + assert (∃ pc, accept_step (at_now a) (at_driver a) tid (at_pc a) db = (pc, db) ∧
                    (pc = pc_called ∨ pc = pc_answered ∨ pc = pc_done AcceptUnavailable))
        as (pc & -> & Hpc').
      { destruct (Hothers i a Hne Ei) as [[Ha | Ha] | Ha]; rewrite Ha; simpl.
        - exists pc_answered. split; [done | right; by left].
        - exists (pc_done AcceptUnavailable). split; [| right; by right].
          unfold accept_body, get_trip_in. rewrite Htr, lookup_insert_eq.
          rewrite decide_False; [done |]. simpl. done.
        - exists (pc_done AcceptUnavailable). split; [done | right; by right]. }
      split; [apply Hkeep | split; [done | split; [done |]]].
      right. exists i0, w. cbn [fst snd].
      split; [by rewrite list_lookup_insert_ne |].
      split; [done |]. split; [done |]. split; [done |].
      intros j b Hj Hb. cbn [fst snd] in Hb. destruct (decide (j = i)) as [-> | Hji].
      * rewrite list_lookup_insert_eq in Hb by (by eapply lookup_lt_Some).
        injection Hb as <-. simpl. unfold pending. simpl.
        destruct Hpc' as [-> | [-> | ->]]; [left; by left | left; by right | by right].
      * rewrite list_lookup_insert_ne in Hb by done. by apply (Hothers j).
Qed.

Lemma race_inv_run schedule :
  race_inv tid t attempts db0 (run_schedule tid schedule attempts db0).
Proof.
  unfold run_schedule.
  assert (∀ st, race_inv tid t attempts db0 st →
                race_inv tid t attempts db0 (foldl (sched_step tid) st schedule)) as H.
  { induction schedule as [|i l IH]; intros st Hinv; simpl; [done |].
    apply IH. by apply race_inv_step. }
  apply H, race_inv_start.
Qed.

End OneTrip.

Lemma won_found (l : list Attempt) : ∀ i w,
  l !! i = Some w → won w = true → (1 ≤ length (List.filter won l))%nat.
Proof.
  induction l as [|x l IH]; intros i w Hl Hw; [done |].
  destruct i as [|i]; simpl in *.
  - injection Hl as ->. rewrite Hw. simpl. lia.
  - specialize (IH i w Hl Hw). destruct (won x); simpl; lia.
Qed.



End RaceFacts.

(** ** cancel *)

Section CancelFacts.
Import Store Sql Handlers Registry Lifecycle Bot Examples.

(** None of the five statements that write [trips] sets the status
    cancelled or touches [cancelled_by] and [cancel_reason]. *)
Ltac keeps_not_cancelled :=
  unfold not_cancelled; simpl; intros;
  repeat match goal with H : _ ∧ _ |- _ => destruct H end;
  repeat split; done.

Lemma not_cancelled_step D C A op db :
  never_cancelled db → never_cancelled (step D C A op db).
Proof. apply step_preserves; keeps_not_cancelled. Qed.

Lemma not_cancelled_run D C A ops db :
  never_cancelled db → never_cancelled (run D C A ops db).
Proof. apply run_preserves; keeps_not_cancelled. Qed.

(** C9 does not hold of the code.  The data of the "cancel order" button
    matches no pattern registered in [main], whatever the trip id, so the
    callback query reaches no handler; and no handler of handlers.py ever
    writes the status cancelled, a cancelling actor or a reason: a
    database without cancelled trips stays so under every operation. *)
Theorem cancel_is_not_handled :
  (∀ trip_id, route (cancel_button trip_id) = None) ∧
  (∀ D C A op db, never_cancelled db → never_cancelled (step D C A op db)) ∧
  (∀ D C A ops, never_cancelled (run D C A ops empty_db)).
Proof.
  split; [| split].
  - intros trip_id. reflexivity.
  - apply not_cancelled_step.
  - intros D C A ops. apply not_cancelled_run, trips_all_empty.
Qed.

(** The "stop waiting" button (callback data [waiting_stop_<trip_id>],
    handlers.py 653) falls under the pattern ["^waiting_.*$"], whose handler
    is [start_waiting]; [main] registers [stop_waiting] nowhere. *)
Lemma waiting_stop_reaches_start_waiting trip_id :
  line_end trip_id = true →
  route (String.append "waiting_stop_" trip_id) = Some (Plain cb_start_waiting).
Proof.
  intros H. unfold route. simpl.
  change (String.append "" trip_id) with trip_id. by rewrite H.
Qed.

(** The entry point of a conversation is never reached by a callback
    query: the same pattern is registered before it as a plain handler. *)
Lemma conversations_never_entered data c : route data ≠ Some (Entry c).
Proof.
  unfold route, callback_handlers. simpl.
  repeat (match goal with
          | |- context [if ?b then _ else _] => destruct b eqn:?; [done |]
          end).
  congruence.
Qed.

End CancelFacts.

(** ** Reviews *)

Section ReviewFacts.
Import Store Sql Handlers Registry Lifecycle Examples.

Lemma reviews_to_snoc to rs r :
  to_user r = to → reviews_to to (rs ++ [r]) = reviews_to to rs ++ [r].
Proof.
  intros H. unfold reviews_to. rewrite filter_app. f_equal.
  by rewrite filter_cons_True.
Qed.

(** C5 fails as stated, in each of its three conditions.  The passenger's
    second review of the same trip is stored beside the first and moves
    the driver's rating from 5 to 3; a review of a trip that is only
    accepted is stored; and a review by user 4, no party to the trip, is
    stored against the passenger and sets her rating to 2. *)
Lemma second_review_is_stored :
  (let db1 := (save_review 20 1 "fine" (reviewing 5) db_completed).1 in
   let db2 := (save_review 21 1 "again" (reviewing 1) db1).1 in
   (from_user <$> reviews db1) = [1] ∧
   (rating <$> users db1 !! 2) = Some (Some (5 # 1)) ∧
   (from_user <$> reviews db2) = [1; 1] ∧
   (review_trip_id <$> reviews db2) = ["t1"; "t1"] ∧
   (rating <$> users db2 !! 2) = Some (Some (3 # 1))) ∧
  (let db1 := (save_review 20 1 "early" (reviewing 4) db_accepted).1 in
   (status <$> trips db_accepted !! "t1") = Some accepted ∧
   length (reviews db1) = 1%nat ∧
   (rating <$> users db1 !! 2) = Some (Some (4 # 1))) ∧
  (let db1 := (save_review 20 4 "who" (reviewing 2) db_completed).1 in
   (review_addressee 4 <$> trips db_completed !! "t1") = Some (Some 1) ∧
   length (reviews db1) = 1%nat ∧
   (rating <$> users db1 !! 1) = Some (Some (2 # 1))).
Proof. repeat split; by vm_compute. Qed.

Lemma save_review_rejects now u text s db :
  nonempty (review_trip s) = false ∨ Pricing.truthy (pending_rating s) = false ∨
  trips db !! default "" (review_trip s) = None →
  save_review now u text s db = (db, s).
Proof.
  unfold save_review, get_trip. intros [H | [H | H]].
  - by rewrite H.
  - rewrite H. by rewrite orb_true_r.
  - rewrite H. by case_match.
Qed.

Lemma save_review_stores now u text s db tid r t to :
  review_trip s = Some tid → tid ≠ "" → pending_rating s = Some r → 1 ≤ r ≤ 5 →
  trips db !! tid = Some t → review_addressee u t = Some to →
  is_Some (users db !! u) → is_Some (users db !! to) →
  reviews (save_review now u text s db).1 =
    reviews db ++ [mkReview tid u to r text now] ∧
  (rating <$> users (save_review now u text s db).1 !! to) =
    Some (Some (mean (reviews_to to (reviews db ++ [mkReview tid u to r text now])))) ∧
  review_trip (save_review now u text s db).2 = None ∧
  pending_rating (save_review now u text s db).2 = None.
Proof.
  intros Hs Hne Hr Hrange Ht Hto [usr Hu] [usr' Hu'].
  unfold save_review, get_trip.
  assert (nonempty (review_trip s) = true) as ->.
  { rewrite Hs. simpl. by rewrite (proj2 (String.eqb_neq tid "") Hne). }
  assert (Pricing.truthy (pending_rating s) = true) as ->.
  { rewrite Hr. simpl. apply negb_true_iff. lia. }
  cbn [negb orb]. rewrite Hs, Hr.
  change (default "" (Some tid)) with tid. change (default 0 (Some r)) with r.
  rewrite Ht, Hto.
  assert (insert_review now tid u (Some to) r text db =
          set_reviews (λ l, l ++ [mkReview tid u to r text now]) db) as ->.
  { unfold insert_review. cbv beta iota. rewrite Ht, Hu, Hu'.
    rewrite !bool_decide_eq_true_2 by by eexists.
    assert ((1 <=? r) = true) as -> by lia.
    assert ((r <=? 5) = true) as -> by lia. done. }
  simpl. split; [done |]. split; [| done].
  rewrite lookup_alter_eq, Hu'. simpl. do 2 f_equal.
  rewrite reviews_to_snoc by done.
  by destruct (reviews_to to (reviews db)).
Qed.

(** C5, as the code has it.  [save_review] does nothing (no row, no
    rating changed, the session kept) when the session holds no trip id
    or no rating, or the id names no trip.  Otherwise it looks neither at
    the trip's status, nor at whether the rater is a party, nor at earlier
    reviews: with a rating from 1 to 5 and rater and addressee among the
    users, it appends the review, sets the addressee's rating to the mean
    of all reviews addressed to that user, and clears the session's
    review keys. *)
Theorem save_review_behaviour :
  (∀ now u text s db,
     nonempty (review_trip s) = false ∨ Pricing.truthy (pending_rating s) = false ∨
     trips db !! default "" (review_trip s) = None →
     save_review now u text s db = (db, s)) ∧
  (∀ now u text s db tid r t to,
     review_trip s = Some tid → tid ≠ "" → pending_rating s = Some r → 1 ≤ r ≤ 5 →
     trips db !! tid = Some t → review_addressee u t = Some to →
     is_Some (users db !! u) → is_Some (users db !! to) →
     let res := save_review now u text s db in
     reviews res.1 = reviews db ++ [mkReview tid u to r text now] ∧
     (rating <$> users res.1 !! to) = Some (Some (mean (reviews_to to (reviews res.1)))) ∧
     review_trip res.2 = None ∧ pending_rating res.2 = None).
Proof.
  split.
  - apply save_review_rejects.
  - intros now u text s db tid r t to Hs Hne Hr Hrange Ht Hto Hu Hu' res. subst res.
    destruct (save_review_stores now u text s db tid r t to) as (H1 & H2 & H3 & H4);
      try done.
    by rewrite H1.
Qed.

(** The passenger reviews the completed trip with a 4. *)
Lemma save_review_behaviour_witness :
  let res := save_review 20 1 "fine" (reviewing 4) db_completed in
  reviews res.1 = [mkReview "t1" 1 2 4 "fine" 20] ∧
  (rating <$> users res.1 !! 2) = Some (Some (4 # 1)) ∧
  save_review 20 1 "fine" empty_session db_completed = (db_completed, empty_session).
Proof.
  pose proof save_review_behaviour as [Hrej Hsto].
  pose proof (Hsto 20 1 "fine" (reviewing 4) db_completed "t1" 4
                (a_trip (Some 2) completed (Some 600)) 2 eq_refl) as Hw.
  specialize (Hw ltac:(done) eq_refl ltac:(lia) eq_refl eq_refl
                 ltac:(by eexists) ltac:(by eexists)).
  destruct Hw as (H1 & H2 & _).
  split; [exact H1 |]. split.
  - rewrite H2. by vm_compute.
  - apply Hrej. by left.
Defined.

(** Ratings 5, 3 and 4 addressed to one user average to 4. *)
Lemma mean_of_5_3_4 :
  mean [mkReview "a" 1 2 5 "" 1; mkReview "b" 3 2 3 "" 2; mkReview "c" 4 2 4 "" 3]
  = 4 # 1.
Proof. by vm_compute. Qed.

End ReviewFacts.

(** ** The driver registry *)

Section RegistryFacts.
Import Store Sql Handlers Registry Lifecycle Account System Examples.

Lemma all_offline_drivers_inv db : all_offline db → drivers_inv db.
Proof. intros H id d Hd _. by apply (H id). Qed.

Lemma set_verified_lookup v now a d db id drv :
  drivers (update_driver_verified v now a d db) !! id = Some drv →
  ∃ drv0, drivers db !! id = Some drv0 ∧
          online_status drv = online_status drv0 ∧
          (id = d → verified drv = v) ∧ (id ≠ d → drv = drv0).
Proof.
  simpl. destruct (decide (d = id)) as [<- | Hne].
  - rewrite lookup_alter_eq.
    destruct (drivers db !! d) as [drv0|]; simpl; [| done].
    intros [= <-]. exists drv0. by repeat split.
  - rewrite lookup_alter_ne by done. intros H. exists drv.
    repeat split; [done | congruence].
Qed.

Lemma verify_keeps_inv A now a d db :
  drivers_inv db → drivers_inv (admin_verify_driver A now a d db).2.
Proof.
  intros Hinv. unfold admin_verify_driver. destruct (is_admin a A); [| done].
  intros id drv Hl. simpl in Hl.
  apply set_verified_lookup in Hl as (drv0 & H0 & Hon & Hv & Hother).
  destruct (decide (id = d)) as [-> | Hne].
  - intros Hnv. by rewrite Hv in Hnv.
  - rewrite (Hother Hne). by apply (Hinv id).
Qed.

Lemma registration_row now u years s db name model number :
  0 ≤ years ≤ 70 →
  driver_full_name s = Some name → driver_car_model s = Some model →
  driver_car_number s = Some number →
  drivers db !! u = None → is_Some (users db !! u) →
  (driver_experience now u (Some years) s db).1.1 = ApplicationSent ∧
  drivers (driver_experience now u (Some years) s db).1.2 !! u =
    Some (mkDriver name None model number "economy" years 0 None None 0).
Proof.
  intros Hy Hn Hm Hc Hd [usr Hu]. unfold driver_experience.
  assert ((years <? 0) || (70 <? years) = false) as ->.
  { apply orb_false_iff. lia. }
  rewrite Hn, Hm, Hc. simpl. split; [done |].
  unfold insert_driver. rewrite Hd, Hu. simpl. by rewrite lookup_insert_eq.
Qed.

Lemma step_drivers_offline D C A op db :
  all_offline db → all_offline (step D C A op db).
Proof.
  intros Hoff. destruct op; simpl.
  - unfold trip_confirm, insert_trip. by repeat case_match.
  - unfold accept_trip, update_trip_accepted. by repeat case_match.
  - unfold start_trip. by repeat case_match.
  - unfold stop_waiting. by repeat case_match.
  - unfold complete_trip, incr_trips_count. by repeat case_match.
  - unfold save_review, update_rating, insert_review. by repeat case_match.
  - unfold driver_experience, insert_driver. repeat case_match; try done.
    unfold all_offline. simpl. intros id d.
    destruct (decide (user_id = id)) as [<- | Hne].
    + rewrite lookup_insert_eq. by intros [= <-].
    + rewrite lookup_insert_ne by done. apply Hoff.
  - unfold admin_verify_driver. case_match; [| done].
    intros id drv Hl. simpl in Hl.
    apply set_verified_lookup in Hl as (drv0 & H0 & Hon & _).
    rewrite Hon. by apply (Hoff id).
  - unfold admin_reject_driver. case_match; [| done].
    intros id drv Hl. simpl in Hl.
    apply set_verified_lookup in Hl as (drv0 & H0 & Hon & _).
    rewrite Hon. by apply (Hoff id).
  - done.
  - done.
  - done.
Qed.

Lemma handle_drivers_offline D C A cipher e db :
  all_offline db → all_offline (handle D C A cipher e db).
Proof.
  destruct e as [op | now u name | now u text]; simpl.
  - apply step_drivers_offline.
  - unfold start. by repeat case_match.
  - unfold set_phone_complete. by case_match.
Qed.

Lemma handle_all_drivers_offline D C A cipher evs : ∀ db,
  all_offline db → all_offline (handle_all D C A cipher evs db).
Proof.
  unfold handle_all.
  induction evs as [|e evs IH]; intros db Hoff; simpl; [done |].
  apply IH. by apply handle_drivers_offline.
Qed.

Lemma decision_row v A now a d db drv :
  is_admin a A = true → drivers db !! d = Some drv →
  drivers (set_drivers (alter (driver_set_verified v a now) d) db) !! d =
    Some (mkDriver (full_name drv) (driver_phone drv) (car_model drv) (car_number drv)
                   (driver_car_class drv) (experience drv) v (Some a) (Some now)
                   (online_status drv)).
Proof. intros _ Hd. simpl. by rewrite lookup_alter_eq, Hd. Qed.



End RegistryFacts.

(** ** Showing a phone number *)

Section PhoneFacts.
Import Store Sql Handlers Phone Examples.

Lemma display_unfold cipher enc u tid db :
  format_phone_for_display cipher enc u tid db =
  if negb (nonempty enc) then not_specified
  else match named_trip tid db with
       | Some trip =>
           if is_party u trip then
             let phone := decrypt_phone cipher enc in
             if negb (String.eqb phone "") then format_phone phone else decrypt_failed
           else hidden
       | None => hidden
       end.
Proof.
  unfold format_phone_for_display, named_trip.
  destruct (negb (nonempty enc)); [done |].
  destruct db as [d|], (nonempty tid); done.
Qed.

(** C10 fails as stated: to user 4, no party to the trip, the answer for
    a user without a stored phone ("not specified") differs from the
    answer for a user with one ("hidden"); the two texts are different,
    and an empty stored value counts as none. *)
Lemma display_tells_whether_phone_is_stored :
  (is_party 4 <$> trips db_accepted !! "t1") = Some false ∧
  format_phone_for_display a_cipher None 4 (Some "t1") (Some db_accepted) = not_specified ∧
  format_phone_for_display a_cipher (Some "") 4 (Some "t1") (Some db_accepted)
    = not_specified ∧
  format_phone_for_display a_cipher (Some "token-2") 4 (Some "t1") (Some db_accepted)
    = hidden ∧
  String.eqb not_specified hidden = false.
Proof. repeat split; by vm_compute. Qed.

(** C10, as the code has it.  For a user who is no party to the named
    trip (or when no trip is named or found) the answer depends on the
    stored value only through whether it is empty: "hidden" for every
    non-empty value, whatever it and the cipher are, and "not specified"
    for an empty one.  The decrypted number is used only in the answer to
    the trip's passenger or driver. *)
Theorem phone_hidden_from_non_party cipher enc u tid db :
  ((∀ t, named_trip tid db = Some t → is_party u t = false) →
     format_phone_for_display cipher enc u tid db =
     if nonempty enc then hidden else not_specified) ∧
  ((∀ t, named_trip tid db = Some t → is_party u t = false) →
     ∀ cipher' enc', nonempty enc' = nonempty enc →
     format_phone_for_display cipher' enc' u tid db =
     format_phone_for_display cipher enc u tid db) ∧
  (∀ t, named_trip tid db = Some t → is_party u t = true → nonempty enc = true →
     format_phone_for_display cipher enc u tid db =
     let phone := decrypt_phone cipher enc in
     if negb (String.eqb phone "") then format_phone phone else decrypt_failed).
Proof.
  assert (∀ c e, (∀ t, named_trip tid db = Some t → is_party u t = false) →
            format_phone_for_display c e u tid db =
            if nonempty e then hidden else not_specified) as Hnon.
  { intros c e Hno. rewrite display_unfold.
    destruct (nonempty e); simpl; [| done].
    destruct (named_trip tid db) as [t|] eqn:E; [| done].
    by rewrite (Hno t eq_refl). }
  split; [apply Hnon |]. split.
  - intros Hno cipher' enc' Hsame. rewrite !Hnon by done. by rewrite Hsame.
  - intros t Ht Hparty Henc. rewrite display_unfold, Henc, Ht, Hparty. done.
Qed.

(** The bystander gets the same answer for two different stored tokens;
    the driver gets the decrypted number, formatted. *)
Lemma phone_hidden_from_non_party_witness :
  format_phone_for_display None (Some "token-1") 4 (Some "t1") (Some db_accepted) =
  format_phone_for_display a_cipher (Some "token-2") 4 (Some "t1") (Some db_accepted) ∧
  format_phone_for_display a_cipher (Some "token-1") 2 (Some "t1") (Some db_accepted) =
  "+7 (999) 123-45-67".
Proof.
  split.
  - apply (proj1 (proj2 (phone_hidden_from_non_party
              a_cipher (Some "token-2") 4 (Some "t1") (Some db_accepted)))).
    + intros t Ht. vm_compute in Ht. by injection Ht as <-.
    + done.
  - rewrite (proj2 (proj2 (phone_hidden_from_non_party
              a_cipher (Some "token-1") 2 (Some "t1") (Some db_accepted)))
              (a_trip (Some 2) accepted None)); by vm_compute.
Defined.

End PhoneFacts.

(** * Further properties of the code *)

(** ** Pricing *)

Section PricingMore.
Import Pricing.

(** X1.  The waiting charge is never negative and never goes down when the
    waiting time grows. *)
Theorem waiting_charge_never_decreases (m n : Z) :
  m ≤ n → 0 ≤ calculate_waiting_charge m ≤ calculate_waiting_charge n.
Proof.
  intros Hmn. split.
  - apply waiting_charge_nonneg.
  - by apply waiting_charge_monotone.
Qed.

Lemma waiting_charge_never_decreases_witness :
  0 ≤ calculate_waiting_charge 4 ≤ calculate_waiting_charge 9.
Proof. apply waiting_charge_never_decreases. lia. Defined.

Lemma rhe_cases n d :
  0 < d →
  2 * Z.abs (round_half_even n d * d - n) < d ∨
  (2 * Z.abs (round_half_even n d * d - n) = d ∧ Z.even (round_half_even n d) = true).
Proof.
  intros Hd. unfold round_half_even.
  pose proof (Z.div_mod n d ltac:(lia)) as Hdm.
  pose proof (Z.mod_pos_bound n d Hd) as Hb.
  set (q := n / d) in *. set (r := n mod d) in *.
  destruct (2 * r <? d) eqn:E1; [left; nia |].
  destruct (d <? 2 * r) eqn:E2; [left; nia |].
  right. assert (2 * r = d) by lia.
  destruct (Z.even q) eqn:E3.
  - split; [nia | done].
  - split; [nia |]. rewrite Z.even_add. rewrite E3. done.
Qed.

Lemma rhe_unique n d y :
  0 < d → 2 * Z.abs (y * d - n) < d → round_half_even n d = y.
Proof.
  intros Hd Hy. unfold round_half_even.
  pose proof (Z.div_mod n d ltac:(lia)) as Hdm.
  pose proof (Z.mod_pos_bound n d Hd) as Hb.
  set (q := n / d) in *. set (r := n mod d) in *.
  assert (∃ k, y = q + k) as [k ->] by (exists (y - q); lia).
  assert (k ≤ -1 ∨ k = 0 ∨ k = 1 ∨ 2 ≤ k) as Hk by lia.
  destruct (2 * r <? d) eqn:E1; [| destruct (d <? 2 * r) eqn:E2].
  - destruct Hk as [Hk | [-> | [-> | Hk]]]; [nia | lia | nia | nia].
  - destruct Hk as [Hk | [-> | [-> | Hk]]]; [nia | nia | lia | nia].
  - exfalso. destruct Hk as [Hk | [-> | [-> | Hk]]]; nia.
Qed.

Lemma rhe_tie n d y :
  0 < d → 2 * (n - y * d) = d →
  round_half_even n d = if Z.even y then y else y + 1.
Proof.
  intros Hd Hy. unfold round_half_even.
  pose proof (Z.div_mod n d ltac:(lia)) as Hdm.
  pose proof (Z.mod_pos_bound n d Hd) as Hb.
  set (q := n / d) in *. set (r := n mod d) in *.
  assert (∃ k, q = y + k) as [k Hq] by (exists (q - y); lia).
  assert (k ≤ -1 ∨ k = 0 ∨ 1 ≤ k) as Hk by lia.
  assert (q = y) as -> by (destruct Hk as [Hk | [-> | Hk]]; [nia | lia | nia]).
  assert (2 * r = d) by nia.
  destruct (2 * r <? d) eqn:E1; [lia |].
  destruct (d <? 2 * r) eqn:E2; [lia |]. done.
Qed.

(** Rounding to a grid of [1/D] first and to an integer afterwards gives
    the integer nearest to [p / 50], when the grid is fine enough. *)
Lemma double_rounding p H :
  16 ≤ H →
  round_half_even (round_half_even (p * (2 * H)) 50) (2 * H) = round_half_even p 50.
Proof.
  intros HH.
  set (y := round_half_even p 50).
  set (m := round_half_even (p * (2 * H)) 50).
  destruct (rhe_cases p 50 ltac:(lia)) as [Hy | [Hy Hev]]; fold y in Hy.
  - apply rhe_unique; [lia |].
    destruct (rhe_cases (p * (2 * H)) 50 ltac:(lia)) as [Hm | [Hm _]]; fold m in Hm; nia.
  - fold y in Hev.
    assert (p = y * 50 + 25 ∨ p = y * 50 - 25) as [Hp | Hp] by lia.
    + assert (m = y * (2 * H) + H) as ->.
      { apply rhe_unique; [lia |]. nia. }
      rewrite (rhe_tie _ (2 * H) y) by nia. by rewrite Hev.
    + assert (m = (y - 1) * (2 * H) + H) as ->.
      { apply rhe_unique; [lia |]. nia. }
      rewrite (rhe_tie _ (2 * H) (y - 1)) by nia.
      rewrite Z.even_sub, Hev. simpl. lia.
Qed.

Lemma py_round_div_exact p :
  Z.abs p < 2 ^ 53 → py_round_div p 50 = Some (round_half_even p 50).
Proof.
  intros Hp. unfold py_round_div, true_divide.
  destruct (p =? 0) eqn:E0.
  { apply Z.eqb_eq in E0 as ->. reflexivity. }
  apply Z.eqb_neq in E0.
  assert (0 ≤ Z.log2 (Z.abs p) ≤ 52) as Hlog.
  { split; [apply Z.log2_nonneg |].
    assert (Z.log2 (Z.abs p) < 53); [| lia].
    apply Z.log2_lt_pow2; lia. }
  change (Z.log2 50) with 5.
  set (e1 := Z.log2 (Z.abs p) - 5 - 53).
  set (e2 := if 2 ^ 53 * scaled_den 50 e1 <=? scaled_num (Z.abs p) e1 then e1 + 1 else e1).
  assert (-58 ≤ e2 ≤ -5) as He2.
  { subst e2. destruct (_ <=? _); lia. }
  rewrite Z.max_l by lia.
  assert ((0 <=? e2) = false) as -> by lia. simpl.
  f_equal. unfold py_round, scaled_num, scaled_den. simpl.
  assert ((e2 <? 0) = true) as -> by lia.
  assert (2 ^ (- e2) = 2 * 2 ^ (- e2 - 1)) as ->.
  { rewrite <- Z.pow_succ_r by lia. f_equal. lia. }
  apply double_rounding.
  change 16 with (2 ^ 4). apply Z.pow_le_mono_r; lia.
Qed.

Lemma round_half_even_nearest (p : Z) :
  (round_half_even p 50 * 50) mod 50 = 0 ∧
  p - 25 ≤ round_half_even p 50 * 50 ≤ p + 25.
Proof.
  split; [apply Z.mod_mul; lia |].
  destruct (rhe_cases p 50 ltac:(lia)) as [H | [H _]]; lia.
Qed.

(** X2.  For a class entry with both keys and a fare
    [60 + distance * rate] below [2 ^ 53] in absolute value - where the
    double [price / 50] rounds to the same integer as the exact quotient -
    the price is never below the class minimum and never more than 25
    below the fare; whenever it is above the minimum it is a multiple of
    50 within 25 of the fare.  (Beyond that range neither holds: the
    rounding of the double can be 26 off, and a quotient too large for a
    double is answered with the fixed (500, 400).) *)
Theorem calculate_price_floor_and_step T C a b cls economy rate floor :
  C !! "economy" = Some economy →
  base_price (default economy (C !! cls)) = Some rate →
  min_price (default economy (C !! cls)) = Some floor →
  let fare := 60 + looked_up T a b * rate in
  Z.abs fare < 2 ^ 53 →
  let p := (calculate_price T C a b cls).1 in
  floor ≤ p ∧ fare - 25 ≤ p ∧
  (floor < p → p mod 50 = 0 ∧ p ≤ fare + 25).
Proof.
  intros He Hr Hf fare Hfare p. subst p.
  rewrite calculate_price_distance, He. simpl. rewrite Hr, Hf. simpl.
  fold fare. rewrite (py_round_div_exact fare Hfare). simpl.
  destruct (round_half_even_nearest fare) as [Hmod Hnear].
  split; [lia |]. split; [lia |].
  intros Hlt.
  replace (Z.max floor (round_half_even fare 50 * 50))
    with (round_half_even fare 50 * 50) in * by lia.
  split; [done | lia].
Qed.

(** 360 km at 10 a km: the fare 3660 is priced 3650.  At a rate of
    [25 * 2 ^ 48 + 7] for 2 km the fare is beyond the range and the price
    is 26 above it; at a rate of [2 ^ 1024] the quotient is no double and
    the answer is the fixed one. *)
Lemma calculate_price_floor_and_step_witness :
  (let p := (calculate_price (one_road 360) one_class "Kazan" "Samara" "economy").1 in
   300 ≤ p ∧ 3660 - 25 ≤ p ∧ (300 < p → p mod 50 = 0 ∧ p ≤ 3660 + 25)) ∧
  (let steep := {[ "economy" := mkCarInfo (Some (25 * 2 ^ 48 + 7)) (Some 300) ]} in
   (calculate_price (one_road 2) steep "Kazan" "Samara" "economy").1 =
   (60 + 2 * (25 * 2 ^ 48 + 7)) + 26) ∧
  (let steep := {[ "economy" := mkCarInfo (Some (2 ^ 1024)) (Some 300) ]} in
   calculate_price (one_road 50) steep "Kazan" "Samara" "economy" = (500, 400)).
Proof.
  split; [| split; by vm_compute].
  apply (calculate_price_floor_and_step (one_road 360) one_class
           "Kazan" "Samara" "economy" (mkCarInfo (Some 10) (Some 300)) 10 300);
    by vm_compute.
Defined.

(** X3.  The fallbacks of [calculate_price]: a class that is not in the
    table is priced as ['economy']; a pair of cities stored in neither
    order is taken to be 400 km apart; and without an ['economy'] entry
    every request, whatever its class, gets the fixed answer (500, 400). *)
Theorem calculate_price_fallbacks T C a b cls :
  (C !! cls = None →
     calculate_price T C a b cls = calculate_price T C a b "economy") ∧
  (T !! (a, b) = None → T !! (b, a) = None → (calculate_price T C a b cls).2 = 400) ∧
  (C !! "economy" = None → calculate_price T C a b cls = (500, 400)).
Proof.
  rewrite !calculate_price_distance. repeat split.
  - intros Hc. destruct (C !! "economy") as [e|] eqn:E; [| done].
    by rewrite Hc.
  - intros H1 H2. unfold looked_up. rewrite H1, H2. simpl.
    by case_match.
  - by intros ->.
Qed.

(** An unknown class and an unknown pair of cities. *)
Lemma calculate_price_fallbacks_witness :
  calculate_price (one_road 360) one_class "Kazan" "Samara" "business" = (3650, 360) ∧
  (calculate_price (one_road 360) one_class "Kazan" "Ufa" "economy").2 = 400 ∧
  calculate_price (one_road 360) ∅ "Kazan" "Samara" "economy" = (500, 400).
Proof.
  pose proof (calculate_price_fallbacks (one_road 360) one_class
                "Kazan" "Samara" "business") as (H1 & _ & _).
  pose proof (calculate_price_fallbacks (one_road 360) one_class
                "Kazan" "Ufa" "economy") as (_ & H2 & _).
  pose proof (calculate_price_fallbacks (one_road 360) ∅
                "Kazan" "Samara" "economy") as (_ & _ & H3).
  split; [| split].
  - rewrite H1; by vm_compute.
  - apply H2; by vm_compute.
  - by apply H3.
Defined.

End PricingMore.

(** ** The state machine, row by row *)

Section MachineFacts.
Import Store Sql Handlers Registry Lifecycle Machine Examples.

Section StepRelates.
Variable R : Trip → Trip → Prop.
Hypothesis R_refl : ∀ t, R t t.
Hypothesis R_accepted : ∀ d now t, status t = searching → R t (trip_set_accepted d now t).
Hypothesis R_started : ∀ now t, status t = accepted → R t (trip_set_started now t).
Hypothesis R_waiting : ∀ m c t, R t (trip_set_waiting m c t).
Hypothesis R_completed : ∀ now final t,
  status t = started → R t (trip_set_completed now final t).

Lemma alter_relates f tid (m : gmap string Trip) id t :
  m !! id = Some t → (∀ t0, m !! tid = Some t0 → R t0 (f t0)) →
  ∃ t', alter f tid m !! id = Some t' ∧ R t t'.
Proof.
  intros Hl Hf. destruct (decide (tid = id)) as [-> | Hne].
  - rewrite lookup_alter_eq, Hl. simpl. eexists. split; [done |]. by apply Hf.
  - rewrite lookup_alter_ne by done. by exists t.
Qed.

Lemma same_relates (m m' : gmap string Trip) id t :
  m' = m → m !! id = Some t → ∃ t', m' !! id = Some t' ∧ R t t'.
Proof. intros -> Hl. by exists t. Qed.

Lemma step_relates D C A op db id t :
  trips db !! id = Some t →
  ∃ t', trips (step D C A op db) !! id = Some t' ∧ R t t'.
Proof.
  intros Hl.
  destruct op as [now u tid to s | now d tid | now u tid | now tid s | now u tid
                 | now u text s | now u parsed s | now a d | now a d | u | u | u];
    simpl.
  - unfold trip_confirm.
    destruct (negb (nonempty (trip_from s)) || String.eqb to "");
      [by exists t |].
    destruct (get_user db u) as [usr|]; [| by exists t].
    destruct (negb (nonempty (phone usr))); [by exists t |].
    destruct (Pricing.calculate_price D C (default "" (trip_from s)) to "economy")
      as [p dist]. simpl. unfold insert_trip.
    destruct (trips db !! tid) eqn:E; [by exists t |].
    destruct (users db !! u); [| by exists t]. simpl.
    rewrite lookup_insert_ne by congruence. by exists t.
  - unfold accept_trip.
    destruct (get_trip_in searching db tid) as [t0|] eqn:Eg; [| by exists t].
    apply get_trip_in_Some in Eg as [Ht0 Hst].
    destruct (get_driver db d) as [drv|]; [| by exists t].
    destruct (verified drv =? 0); [by exists t |].
    assert (∃ t', trips (update_trip_accepted now d tid db) !! id = Some t'
                  ∧ R t t') as Hup.
    { unfold update_trip_accepted. destruct (users db !! d); [| by exists t].
      simpl. apply alter_relates; [done |]. intros t1 Ht1.
      apply R_accepted. congruence. }
    by case_match.
  - unfold start_trip.
    destruct (get_trip_in accepted db tid) as [t0|] eqn:Eg; [| by exists t].
    apply get_trip_in_Some in Eg as [Ht0 Hst]. simpl.
    apply alter_relates; [done |]. intros t1 Ht1. apply R_started. congruence.
  - unfold stop_waiting. destruct (waiting_start s !! tid); [| by exists t].
    simpl. apply alter_relates; [done |]. intros. apply R_waiting.
  - unfold complete_trip.
    destruct (get_trip_in started db tid) as [t0|] eqn:Eg.
    + apply get_trip_in_Some in Eg as [Ht0 Hst].
      assert (trips (log_action now u "complete_trip"
                (incr_trips_count (driver_id t0)
                   (incr_trips_count (Some (passenger_id t0))
                      (update_trip_completed now
                         (price t0 + default 0 (waiting_charge t0)) tid db)))) =
              alter (trip_set_completed now (price t0 + default 0 (waiting_charge t0)))
                    tid (trips db)) as Heq by (by destruct (driver_id t0)).
      simpl. simpl in Heq. rewrite Heq.
      apply alter_relates; [done |]. intros t1 Ht1. apply R_completed. congruence.
    + destruct (get_trip db tid); [case_decide |]; by exists t.
  - rewrite save_review_trips. by exists t.
  - rewrite driver_experience_trips. by exists t.
  - unfold admin_verify_driver. case_match; by exists t.
  - unfold admin_reject_driver. case_match; by exists t.
  - by exists t.
  - by exists t.
  - by exists t.
Qed.
Hypothesis R_trans : ∀ t1 t2 t3, R t1 t2 → R t2 t3 → R t1 t3.

Lemma run_relates D C A ops : ∀ db id t,
  trips db !! id = Some t →
  ∃ t', trips (run D C A ops db) !! id = Some t' ∧ R t t'.
Proof.
  unfold run. induction ops as [| op ops IH]; intros db id t Hl; simpl.
  - by exists t.
  - destruct (step_relates D C A op db id t Hl) as (t1 & H1 & HR1).
    destruct (IH _ id t1 H1) as (t2 & H2 & HR2).
    exists t2. split; [done |]. by eapply R_trans.
Qed.
End StepRelates.

Lemma advances_refl t : advances t t.
Proof. unfold advances. repeat split; by left. Qed.

Lemma advances_trans t1 t2 t3 :
  advances t1 t2 → advances t2 t3 →
  passenger_id t3 = passenger_id t1 ∧ from_city t3 = from_city t1 ∧
  to_city t3 = to_city t1 ∧ price t3 = price t1 ∧ created_at t3 = created_at t1.
Proof.
  intros (H1 & H2 & H3 & H4 & H5 & _) (G1 & G2 & G3 & G4 & G5 & _).
  repeat split; congruence.
Qed.

(** X4.  No operation deletes a trip or rewrites the request in it: after
    any operation every trip is still there with the same passenger,
    route, price and creation time, and its status is what it was or the
    next one on the way searching, accepted, started, completed. *)
Theorem step_advances D C A op db id t :
  trips db !! id = Some t →
  ∃ t', trips (step D C A op db) !! id = Some t' ∧ advances t t'.
Proof.
  apply step_relates.
  - apply advances_refl.
  - intros d now t0 Hst. unfold advances. simpl. rewrite Hst.
    repeat split; by right.
  - intros now t0 Hst. unfold advances. simpl. rewrite Hst.
    repeat split; by right.
  - intros m c t0. unfold advances. simpl. repeat split; by left.
  - intros now final t0 Hst. unfold advances. simpl. rewrite Hst.
    repeat split; by right.
Qed.

(** The started trip after its completion. *)
Lemma step_advances_witness :
  ∃ t', trips (step ∅ ∅ [9] (OpComplete 50 2 "t1") db_started) !! "t1" = Some t' ∧
        advances (a_trip (Some 2) started None) t'.
Proof.
  apply (step_advances ∅ ∅ [9] (OpComplete 50 2 "t1") db_started "t1").
  by vm_compute.
Defined.

Ltac stamps :=
  unfold stamped, taken, under_way, is_Some in *; simpl in *;
  repeat match goal with H : status _ = _ |- _ => rewrite H in * end;
  intuition (try congruence; eauto);
  repeat match goal with H : ∃ _, _ |- _ => destruct H end;
  try congruence; eauto.

Lemma stamped_created now u a b p :
  stamped (mkTrip u None a b p "economy" searching now
                  None None None None None (Some 0) (Some 0) None).
Proof. stamps. Qed.

Lemma stamped_accepted d now t :
  status t = searching → stamped t → stamped (trip_set_accepted d now t).
Proof. intros Hst Hs. stamps. Qed.

Lemma stamped_started now t :
  status t = accepted → stamped t → stamped (trip_set_started now t).
Proof. intros Hst Hs. stamps. Qed.

Lemma stamped_waiting m c t : stamped t → stamped (trip_set_waiting m c t).
Proof. intros Hs. stamps. Qed.

Lemma stamped_completed now final t :
  status t = started → stamped t → stamped (trip_set_completed now final t).
Proof. intros Hst Hs. stamps. Qed.

Create HintDb stamp_rows.
#[local] Hint Resolve stamped_created stamped_accepted stamped_started
  stamped_waiting stamped_completed : stamp_rows.

(** X5.  Every update handled keeps the columns a transition fills in
    step with the status: a trip has a driver and an acceptance time
    exactly when it is accepted, started or completed, a start time
    exactly when it is started or completed, a completion time exactly
    when it is completed.  So it is in every state reached from the empty
    database. *)
Theorem stamps_follow_status :
  (∀ D C A cipher e db,
     trips_all stamped db → trips_all stamped (System.handle D C A cipher e db)) ∧
  (∀ D C A cipher evs db,
     trips_all stamped db → trips_all stamped (System.handle_all D C A cipher evs db)) ∧
  (∀ D C A cipher evs, trips_all stamped (System.handle_all D C A cipher evs empty_db)).
Proof.
  split; [| split].
  - intros D C A cipher e db. apply handle_preserves; auto with stamp_rows.
  - intros D C A cipher evs db. apply handle_all_preserves; auto with stamp_rows.
  - intros D C A cipher evs. apply handle_all_preserves; auto with stamp_rows.
    apply trips_all_empty.
Qed.

(** Anna's trip, accepted and started by Boris: the row has its driver,
    its acceptance and start time and no completion time; once completed
    it has the completion time as well. *)
Lemma stamps_follow_status_witness :
  let db := Scenario.after (Scenario.arrivals ++ Scenario.ride) in
  let db' := System.handle Scenario.roads Scenario.classes Scenario.operators
               Scenario.cipher (System.Handler (OpComplete 500 2 "t1")) db in
  trips db !! "t1" =
    Some (mkTrip 1 (Some 2) "Kazan" "Samara" 3650 "economy" started 10 (Some 20) (Some 30)
                 None None None (Some 0) (Some 0) None) ∧
  trips_all stamped db ∧
  (completed_at <$> trips db' !! "t1") = Some (Some 500) ∧
  trips_all stamped db'.
Proof.
  intros db db'.
  pose proof stamps_follow_status as (Hstep & _ & Hall).
  assert (trips_all stamped db) as Hdb by apply Hall.
  split; [by vm_compute |]. split; [exact Hdb |]. split; [by vm_compute |].
  by apply Hstep.
Defined.

(** X6.  A completed trip is final: whatever operations follow, in any
    number, the trip stays completed with the same passenger, driver,
    price, final price and completion time. *)
Theorem completed_trip_is_final D C A ops db id t :
  trips db !! id = Some t → status t = completed →
  ∃ t', trips (run D C A ops db) !! id = Some t' ∧
        status t' = completed ∧ final_price t' = final_price t ∧
        passenger_id t' = passenger_id t ∧ driver_id t' = driver_id t ∧
        price t' = price t ∧ completed_at t' = completed_at t.
Proof.
  intros Hl Hst.
  destruct (run_relates Settled.final_kept) with (D := D) (C := C) (A := A)
    (ops := ops) (db := db) (id := id) (t := t) as (t' & Hl' & Hk); try done.
  - intros d now t0 Hs Hc. congruence.
  - intros now t0 Hs Hc. congruence.
  - intros now final t0 Hs Hc. congruence.
  - intros t1 t2 t3 H12 H23 Hc.
    destruct (H12 Hc) as (S2 & F2 & P2 & D2 & Pr2 & C2).
    destruct (H23 S2) as (S3 & F3 & P3 & D3 & Pr3 & C3).
    repeat split; congruence.
  - exists t'. split; [done |]. by apply Hk.
Qed.

(** The completed trip after a late "stop waiting", a second completion
    and an attempt to accept it. *)
Lemma completed_trip_is_final_witness :
  ∃ t', trips (run ∅ ∅ [9]
                 [OpStopWaiting 900 "t1" waiting_since_100;
                  OpComplete 901 2 "t1"; OpAccept 902 3 "t1"] db_completed) !! "t1"
        = Some t' ∧
        status t' = completed ∧ final_price t' = Some 600 ∧
        passenger_id t' = 1 ∧ driver_id t' = Some 2 ∧
        price t' = 600 ∧ completed_at t' = None.
Proof.
  apply (completed_trip_is_final ∅ ∅ [9]
           [OpStopWaiting 900 "t1" waiting_since_100;
            OpComplete 901 2 "t1"; OpAccept 902 3 "t1"] db_completed "t1"
           (a_trip (Some 2) completed (Some 600))); by vm_compute.
Defined.

End MachineFacts.

(** ** Guards and edge cases of the handlers *)

Section HandlerFacts.
Import Store Sql Handlers Registry Lifecycle Machine Examples.

(** X7.  On a searching trip, an attempt by someone with no driver row, or
    by a driver whose application is still pending ([verified = 0]), is
    refused and changes nothing. *)
Theorem accept_needs_verification now d tid db t :
  trips db !! tid = Some t → status t = searching →
  (drivers db !! d = None ∨ ∃ drv, drivers db !! d = Some drv ∧ verified drv = 0) →
  accept_trip now d tid db = (AcceptNotVerified, db).
Proof.
  intros Ht Hst Hd. unfold accept_trip, get_driver.
  rewrite (get_trip_in_found searching db tid t Ht Hst).
  destruct Hd as [-> | (drv & -> & ->)]; done.
Qed.

(** The bystander 4 has no driver row. *)
Lemma accept_needs_verification_witness :
  accept_trip 10 4 "t1" db_searching = (AcceptNotVerified, db_searching).
Proof.
  apply (accept_needs_verification 10 4 "t1" db_searching (a_trip None searching None));
    [by vm_compute | by vm_compute | left; by vm_compute].
Defined.

(** X8.  The operator's rejection does not stop a driver from taking
    trips: the guard of [accept_trip] tests the flag for being non-zero,
    and the rejection stores -1.  After the rejection the driver's attempt
    on a searching trip succeeds: the trip is accepted and carries this
    driver's id and the time of the attempt, and nothing else in the row
    has changed. *)
Theorem rejected_driver_still_accepts A now a now' d tid db t drv :
  is_admin a A = true →
  drivers db !! d = Some drv → is_Some (users db !! d) →
  trips db !! tid = Some t → status t = searching →
  is_Some (users db !! passenger_id t) →
  let db1 := (admin_reject_driver A now a d db).2 in
  (verified <$> drivers db1 !! d) = Some (-1) ∧
  (accept_trip now' d tid db1).1 = AcceptOk ∧
  trips (accept_trip now' d tid db1).2 !! tid =
    Some (mkTrip (passenger_id t) (Some d) (from_city t) (to_city t) (price t)
                 (car_class t) accepted (created_at t) (Some now') (started_at t)
                 (completed_at t) (cancelled_by t) (cancel_reason t)
                 (waiting_minutes t) (waiting_charge t) (final_price t)).
Proof.
  intros Ha Hd [usr Hu] Ht Hst [p Hp] db1. subst db1.
  unfold admin_reject_driver. rewrite Ha. simpl.
  split; [by rewrite lookup_alter_eq, Hd |].
  unfold accept_trip, get_driver, get_trip_in. simpl.
  rewrite Ht, lookup_alter_eq, Hd. simpl.
  rewrite decide_True by done. simpl.
  unfold update_trip_accepted, get_user. simpl. rewrite Hu. simpl. rewrite Hp.
  split; [done |]. simpl. by rewrite lookup_alter_eq, Ht.
Qed.

(** Operator 9 rejects Boris, who then takes Anna's searching trip. *)
Lemma rejected_driver_still_accepts_witness :
  let db :=
    Scenario.after
      (Scenario.arrivals ++
       [System.Handler (OpCreate 10 1 "t1" "Samara" Scenario.from_kazan)]) in
  let db1 := (admin_reject_driver [9] 20 9 2 db).2 in
  (verified <$> drivers db1 !! 2) = Some (-1) ∧
  (accept_trip 21 2 "t1" db1).1 = AcceptOk ∧
  trips (accept_trip 21 2 "t1" db1).2 !! "t1" =
    Some (mkTrip 1 (Some 2) "Kazan" "Samara" 3650 "economy" accepted 10 (Some 21)
                 None None None None (Some 0) (Some 0) None).
Proof.
  intros db.
  apply (rejected_driver_still_accepts [9] 20 9 21 2 "t1" db
           (mkTrip 1 None "Kazan" "Samara" 3650 "economy" searching 10 None
                   None None None None (Some 0) (Some 0) None)
           (mkDriver "Boris B" None "Lada Vesta" "A123BB77" "economy" 7 1 (Some 9)
                     (Some 7) 0));
    try (by vm_compute); vm_compute; by eexists.
Defined.

(** X9.  A trip is not created for a user without a phone on file: with
    no user row, no stored phone or an empty one, [trip_confirm] asks for
    the phone and leaves database and session as they are. *)
Theorem trip_confirm_needs_phone D C now u tid to s db :
  nonempty (trip_from s) = true → to ≠ "" →
  (users db !! u = None ∨ ∃ usr, users db !! u = Some usr ∧ nonempty (phone usr) = false) →
  trip_confirm D C now u tid to s db = (TripNeedsPhone, db, s).
Proof.
  intros Hfrom Hto Hu. unfold trip_confirm, get_user.
  rewrite Hfrom, (proj2 (String.eqb_neq to "") Hto). simpl.
  destruct Hu as [-> | (usr & -> & ->)]; done.
Qed.

(** User 4 has no phone on file. *)
Lemma trip_confirm_needs_phone_witness :
  let s := mkSession (Some "Kazan") None None None ∅ None None None in
  trip_confirm (Pricing.one_road 360) Pricing.one_class 5 4 "t2" "Samara" s db_searching =
  (TripNeedsPhone, db_searching, s).
Proof.
  intros s. apply trip_confirm_needs_phone; [done | done |].
  right. eexists. split; by vm_compute.
Defined.



(** X11.  Completing twice counts once: the second call on the same trip
    answers "already completed" and changes nothing, so the final price
    and the parties' trip counts are those of the first call. *)
Theorem complete_twice_counts_once now now' actor actor' tid db t :
  trips db !! tid = Some t → status t = started →
  complete_trip now' actor' tid (complete_trip now actor tid db).2 =
  (CompleteAlready, (complete_trip now actor tid db).2).
Proof.
  intros Ht Hst.
  assert (trips (complete_trip now actor tid db).2 !! tid =
          Some (trip_set_completed now (price t + default 0 (waiting_charge t)) t)) as H1.
  { rewrite (complete_trip_trips now actor tid db t Ht Hst).
    by rewrite lookup_alter_eq, Ht. }
  unfold complete_trip at 1. unfold get_trip_in, get_trip. rewrite H1. simpl.
  done.
Qed.

Lemma complete_twice_counts_once_witness :
  complete_trip 31 1 "t1" (complete_trip 30 2 "t1" db_started).2 =
  (CompleteAlready, (complete_trip 30 2 "t1" db_started).2).
Proof.
  apply (complete_twice_counts_once 30 31 2 1 "t1" db_started
           (a_trip (Some 2) started None)); by vm_compute.
Defined.

(** X12.  [stop_waiting] uses its timer up: without a timer for the trip
    in the session it reports that none was found and changes nothing, and
    a second stop right after a first finds none. *)
Theorem stop_waiting_uses_timer_up now now' tid s db :
  (waiting_start s !! tid = None → stop_waiting now tid s db = (WaitingNotFound, db, s)) ∧
  (let r1 := stop_waiting now tid s db in
   stop_waiting now' tid r1.2 r1.1.2 = (WaitingNotFound, r1.1.2, r1.2)).
Proof.
  split.
  - intros H. unfold stop_waiting. by rewrite H.
  - intros r1. subst r1.
    destruct (waiting_start s !! tid) as [st|] eqn:E.
    + unfold stop_waiting at 2 3 4 5. rewrite E. simpl.
      unfold stop_waiting. simpl. by rewrite lookup_delete_eq.
    + unfold stop_waiting at 2 3 4 5. rewrite E. simpl.
      unfold stop_waiting. by rewrite E.
Qed.

(** A timer started at 100 and stopped at 460, then stopped again. *)
Lemma stop_waiting_uses_timer_up_witness :
  let r1 := stop_waiting 460 "t1" waiting_since_100 db_started in
  r1.1.1 = WaitingStopped 6 13 ∧
  stop_waiting 470 "t1" r1.2 r1.1.2 = (WaitingNotFound, r1.1.2, r1.2) ∧
  stop_waiting 460 "t1" empty_session db_started =
    (WaitingNotFound, db_started, empty_session).
Proof.
  intros r1. split; [by vm_compute |]. split.
  - apply (proj2 (stop_waiting_uses_timer_up 460 470 "t1" waiting_since_100 db_started)).
  - by apply (proj1 (stop_waiting_uses_timer_up 460 470 "t1" empty_session db_started)).
Defined.



End HandlerFacts.

(** ** The driver registry, further *)

Section RegistryMore.
Import Store Sql Handlers Registry Lifecycle Machine Examples.

(** X14.  The bounds of the years of experience: a text that is no
    integer, a negative number and a number above 70 are answered with
    the request to enter a number from 0 to 70, and database and session
    stay as they are; with the three earlier answers in the session, every
    number from 0 to 70, both ends included, is accepted. *)
Theorem driver_experience_bounds now u parsed s db :
  ((parsed = None ∨ ∃ y, parsed = Some y ∧ (y < 0 ∨ 70 < y)) →
     driver_experience now u parsed s db = (ExperienceInvalid, db, s)) ∧
  (∀ y, parsed = Some y → 0 ≤ y ≤ 70 →
     is_Some (driver_full_name s) → is_Some (driver_car_model s) →
     is_Some (driver_car_number s) →
     (driver_experience now u parsed s db).1.1 = ApplicationSent ∧
     (driver_experience now u parsed s db).2 = empty_session).
Proof.
  split.
  - intros [-> | (y & -> & Hy)]; [done |].
    unfold driver_experience.
    assert ((y <? 0) || (70 <? y) = true) as -> by (apply orb_true_iff; lia).
    done.
  - intros y -> Hy [n Hn] [m Hm] [c Hc]. unfold driver_experience.
    assert ((y <? 0) || (70 <? y) = false) as -> by (apply orb_false_iff; lia).
    by rewrite Hn, Hm, Hc.
Qed.

(** 71 years are refused, 70 and 0 accepted. *)
Lemma driver_experience_bounds_witness :
  driver_experience 40 4 (Some 71) registering db_searching =
    (ExperienceInvalid, db_searching, registering) ∧
  (driver_experience 40 4 (Some 70) registering db_searching).1.1 = ApplicationSent ∧
  (driver_experience 40 4 (Some 0) registering db_searching).1.1 = ApplicationSent.
Proof.
  split; [| split].
  - apply (proj1 (driver_experience_bounds 40 4 (Some 71) registering db_searching)).
    right. exists 71. split; [done | lia].
  - apply (proj2 (driver_experience_bounds 40 4 (Some 70) registering db_searching) 70);
      [done | lia | by eexists ..].
  - apply (proj2 (driver_experience_bounds 40 4 (Some 0) registering db_searching) 0);
      [done | lia | by eexists ..].
Defined.

(** X15.  Registering again never replaces a driver row: whatever is
    entered, the row of a user who already is in [drivers] (the verified
    flag, the vehicle, the online flag) is what it was, also when the
    reply says that the application was sent. *)
Theorem registration_keeps_existing_row now u parsed s db drv :
  drivers db !! u = Some drv →
  drivers (driver_experience now u parsed s db).1.2 !! u = Some drv.
Proof.
  intros Hd. unfold driver_experience.
  destruct parsed as [y|]; [| done].
  destruct ((y <? 0) || (70 <? y)); [done |].
  destruct (driver_full_name s), (driver_car_model s), (driver_car_number s); try done.
  simpl. unfold insert_driver. by rewrite Hd.
Qed.

(** The verified driver 2 sends the registration form again. *)
Lemma registration_keeps_existing_row_witness :
  (driver_experience 40 2 (Some 3) registering db_searching).1.1 = ApplicationSent ∧
  drivers (driver_experience 40 2 (Some 3) registering db_searching).1.2 !! 2 =
    Some (a_driver 1 0).
Proof.
  split; [by vm_compute |].
  apply registration_keeps_existing_row. by vm_compute.
Defined.

(** X16.  A driver's row changes only through the driver's own
    registration and through a decision on that driver by a listed
    operator: every other operation, a decision by someone who is not an
    operator included, leaves the row as it is. *)
Theorem driver_row_changes_only_by_decision D C A op db id :
  decides_on A id op = false →
  drivers (step D C A op db) !! id = drivers db !! id.
Proof.
  intros Hno.
  destruct op as [now u tid to s | now d tid | now u tid | now tid s | now u tid
                 | now u text s | now u parsed s | now a d | now a d | u | u | u];
    simpl in *.
  - unfold trip_confirm, insert_trip. by repeat case_match.
  - unfold accept_trip, update_trip_accepted. by repeat case_match.
  - unfold start_trip. by repeat case_match.
  - unfold stop_waiting. by repeat case_match.
  - unfold complete_trip, incr_trips_count. by repeat case_match.
  - unfold save_review, update_rating, insert_review. by repeat case_match.
  - apply Z.eqb_neq in Hno.
    unfold driver_experience, insert_driver. repeat case_match; try done.
    simpl. by rewrite lookup_insert_ne.
  - unfold admin_verify_driver. destruct (is_admin a A); [| done].
    simpl in *. apply Z.eqb_neq in Hno. by rewrite lookup_alter_ne.
  - unfold admin_reject_driver. destruct (is_admin a A); [| done].
    simpl in *. apply Z.eqb_neq in Hno. by rewrite lookup_alter_ne.
  - done.
  - done.
  - done.
Qed.

(** User 4, who is no operator, tries to reject driver 2. *)
Lemma driver_row_changes_only_by_decision_witness :
  drivers (step ∅ ∅ [9] (OpReject 60 4 2) db_searching) !! 2 = Some (a_driver 1 0).
Proof.
  rewrite (driver_row_changes_only_by_decision ∅ ∅ [9] (OpReject 60 4 2) db_searching 2);
    by vm_compute.
Defined.

End RegistryMore.

(** ** Buttons and their handlers *)

Section ButtonFacts.
Import Store Sql Handlers Registry Bot Menu Examples.

Lemma strip_prefix_Some lit : ∀ s rest,
  strip_prefix lit s = Some rest → s = String.append lit rest.
Proof.
  induction lit as [| c lit IH]; intros s rest; simpl.
  - by intros [= ->].
  - destruct s as [| d s']; [done |].
    destruct (Ascii.eqb c d) eqn:E; [| done].
    apply Ascii.eqb_eq in E as ->. intros H. by rewrite (IH _ _ H).
Qed.

(** X17.  Buttons the handlers send for which [main] registers no handler:
    "check status" and "call the passenger" for every trip id, the "start
    registration" button of the driver form, the region headers of the
    city list, and the two driver lists of the operator panel.  A press on
    any of them reaches no handler. *)
Theorem buttons_without_handler trip_id :
  route (check_button trip_id) = None ∧
  route (call_button trip_id) = None ∧
  route "driver_reg_start" = None ∧
  route "ignore" = None ∧
  route "admin_drivers_pending" = None ∧
  route "admin_drivers_verified" = None.
Proof. repeat split; reflexivity. Qed.

(** X18.  Buttons that reach another handler than their own: a rating
    button of the review form is taken by the pattern of the "leave a
    review" button, and the "stop waiting" button by the pattern that also
    covers "start waiting"; [main] registers [stop_waiting] and
    [review_rating] for no callback data that reaches them. *)
Theorem buttons_reach_another_handler data :
  line_end data = true →
  route (rating_button data) = Some (Plain cb_leave_review) ∧
  route (waiting_stop_button data) = Some (Plain cb_start_waiting).
Proof.
  intros H. unfold route, rating_button, waiting_stop_button. simpl.
  change (String.append "" data) with data. by rewrite H.
Qed.

(** Five stars, and the timer of trip "t1". *)
Lemma buttons_reach_another_handler_witness :
  route "review_rating_5" = Some (Plain cb_leave_review) ∧
  route "waiting_stop_t1" = Some (Plain cb_start_waiting).
Proof.
  split.
  - by apply (proj1 (buttons_reach_another_handler "5" eq_refl)).
  - by apply (proj2 (buttons_reach_another_handler "t1" eq_refl)).
Defined.

Lemma append_empty (s : string) : String.append s "" = s.
Proof.
  induction s as [| c s IH]; [done |].
  change (String.append (String c s) "") with (String c (String.append s "")).
  by rewrite IH.
Qed.

Lemma exactly_matches lit data :
  re_match (Exactly lit) data = true →
  data = lit ∨ data = String.append lit (String newline "").
Proof.
  unfold re_match. destruct (strip_prefix lit data) as [rest|] eqn:E; [| done].
  apply strip_prefix_Some in E as ->. unfold at_end.
  intros H. apply orb_true_iff in H as [H | H]; apply String.eqb_eq in H as ->.
  - left. apply append_empty.
  - by right.
Qed.

(** X19.  Handlers that no callback query reaches: the entry points of the
    three conversations (driver form, phone entry, review), because the
    same pattern is registered before them as a plain handler, and
    [training_complete], because its data also matches the pattern
    ["^training_.*$"] registered before it. *)
Theorem handlers_never_reached data :
  (∀ c, route data ≠ Some (Entry c)) ∧ route data ≠ Some (Plain cb_training_complete).
Proof.
  split; [intros c; apply conversations_never_entered |].
  destruct (re_match (Exactly "training_complete") data) eqn:Hm.
  - apply exactly_matches in Hm as [-> | ->]; by vm_compute.
  - unfold route, callback_handlers. simpl. simpl in Hm.
    repeat (match goal with
            | |- context [if ?b then _ else _] => destruct b eqn:?; [done |]
            end).
    done.
Qed.

Lemma main_keyboard_buttons A u db data :
  data ∈ get_main_keyboard A u db →
  data ∈ ["new_trip"; "profile"; "my_trips_passenger"; "driver_online";
          "driver_offline"; "my_trips_driver"; "become_driver"; "training_start";
          "sos"; "admin_panel"].
Proof.
  unfold get_main_keyboard. intros H.
  repeat (apply elem_of_app in H as [H | H]);
    repeat case_match;
    repeat (apply elem_of_cons in H as [-> | H]);
    try (by apply elem_of_nil in H);
    repeat (apply elem_of_cons; first [by left | right]).
Qed.

(** X20.  Every button of the main menu has a plain handler registered in
    [main], whatever the user's role, driver row and training flag; and
    the menu shows the operator panel exactly to the listed operators. *)
Theorem main_keyboard_is_routed A u db :
  (∀ data, data ∈ get_main_keyboard A u db → ∃ c, route data = Some (Plain c)) ∧
  ("admin_panel" ∈ get_main_keyboard A u db ↔ u ∈ A).
Proof.
  split.
  - intros data H. apply main_keyboard_buttons in H.
    repeat (apply elem_of_cons in H as [-> | H]); try (eexists; reflexivity).
    by apply elem_of_nil in H.
  - unfold get_main_keyboard, is_admin. split.
    + intros H. case_bool_decide as Hin; [done |].
      rewrite app_nil_r in H.
      repeat (apply elem_of_app in H as [H | H]);
        repeat case_match;
        repeat (apply elem_of_cons in H as [Heq | H]; [discriminate Heq |]);
        by apply elem_of_nil in H.
    + intros Hin. rewrite bool_decide_eq_true_2 by done.
      repeat (apply elem_of_app; right). by apply elem_of_cons; left.
Qed.

End ButtonFacts.

(** ** The settings table *)

Section SettingsFacts.
Import Store Settings.

Lemma insert_default_lookup now (t : gmap string Setting) kv k :
  insert_default now t kv !! k =
    match t !! k with
    | Some row => Some row
    | None => if decide (kv.1 = k) then Some (mkSetting (Some kv.2) now None) else None
    end.
Proof.
  unfold insert_default.
  destruct (t !! kv.1) as [row|] eqn:E.
  - destruct (t !! k) as [row'|] eqn:E'; [done |].
    destruct (decide (kv.1 = k)) as [<-|]; congruence.
  - destruct (decide (kv.1 = k)) as [<-|Hne].
    + by rewrite lookup_insert_eq, E.
    + rewrite lookup_insert_ne by done. by destruct (t !! k).
Qed.

(** X21.  [update_setting] writes the value of a key the table has and
    nothing else: every other key reads as before, and for a key the table
    lacks the call is lost without a trace - [get_setting] still answers
    [None]. *)
Theorem update_setting_only_existing now k v by_user (t : gmap string Setting) k' :
  get_setting k' (update_setting now k v by_user t) =
    if decide (k' = k ∧ is_Some (t !! k)) then Some v else get_setting k' t.
Proof.
  unfold get_setting, update_setting.
  destruct (decide (k' = k)) as [->|Hne].
  - rewrite lookup_alter_eq.
    destruct (t !! k) as [row|] eqn:E; simpl.
    + rewrite decide_True; [done | split; [done | by eexists]].
    + rewrite decide_False; [done |]. intros [_ [x Hx]]. done.
  - rewrite lookup_alter_ne by done.
    rewrite decide_False; [done | tauto].
Qed.

(** X22.  [init_db] on a table that already has rows (a restart): every
    row the table has is left as it is, so a setting an operator changed
    is not reset; a key the table lacks gets the value of the first entry
    of [DEFAULT_SETTINGS] with that key, and stays absent when there is
    none. *)
Theorem init_settings_fills_missing D now : ∀ (t : gmap string Setting) k,
  init_settings D now t !! k =
    match t !! k with
    | Some row => Some row
    | None => (λ v, mkSetting (Some v) now None) <$> (list_to_map D : gmap string string) !! k
    end.
Proof.
  unfold init_settings.
  induction D as [|[k0 v0] D IH]; intros t k; simpl.
  - rewrite lookup_empty. by destruct (t !! k).
  - rewrite IH, insert_default_lookup. simpl.
    destruct (t !! k) as [row|] eqn:E; [done |].
    destruct (decide (k0 = k)) as [->|Hne].
    + by rewrite lookup_insert_eq.
    + by rewrite lookup_insert_ne.
Qed.

End SettingsFacts.
(** ** Accounts *)

Section AccountFacts.
Import Store Sql Handlers Registry Phone Text Account Examples.

Lemma alter_as_insert {A} (f : A → A) (k : Z) (m : gmap Z A) x :
  m !! k = Some x → alter f k m = <[k := f x]> m.
Proof.
  intros Hk. apply map_eq. intros i. destruct (decide (k = i)) as [<- | Hne].
  - by rewrite lookup_alter_eq, lookup_insert_eq, Hk.
  - by rewrite lookup_alter_ne, lookup_insert_ne.
Qed.

(** X23.  [/start] registers once and stamps every time.  For an unknown
    user it stores a row with the defaults of the table (passenger, not
    blocked, rating 5.0, no phone) and one "register" log row, and offers
    the training; called again - at any time, under any name - it finds
    the row, rewrites its [last_active] and nothing else, adds no log row
    and offers the training again.  For a known user the only change to
    the database is the [last_active] of that user's row: the name, the
    phone, the role, the flags, the rating and the trip count stay, and so
    do all other rows and tables. *)
Theorem start_writes_once now now' u name name' db :
  (get_user db u = None →
   let r := start now u name db in
   r.1 = TrainingOffer ∧
   users r.2 =
     <[u := mkUser name None "passenger" 0 (Some (5 # 1)) 0 0 (Some now)]> (users db) ∧
   logs r.2 = logs db ++ [mkLog u "register" now] ∧
   drivers r.2 = drivers db ∧ trips r.2 = trips db ∧ reviews r.2 = reviews db ∧
   let r' := start now' u name' r.2 in
   r'.1 = TrainingOffer ∧
   users r'.2 =
     <[u := mkUser name None "passenger" 0 (Some (5 # 1)) 0 0 (Some now')]> (users db) ∧
   logs r'.2 = logs r.2 ∧
   drivers r'.2 = drivers db ∧ trips r'.2 = trips db ∧ reviews r'.2 = reviews db) ∧
  (∀ usr, get_user db u = Some usr →
   let r := start now u name db in
   users r.2 =
     <[u := mkUser (first_name usr) (phone usr) (role usr) (is_blocked usr) (rating usr)
                   (trips_count usr) (training_completed usr) (Some now)]> (users db) ∧
   logs r.2 = logs db ∧
   drivers r.2 = drivers db ∧ trips r.2 = trips db ∧ reviews r.2 = reviews db).
Proof.
  split.
  - intros Hnew r.
    assert (r = (TrainingOffer,
                 log_action now u "register"
                   (set_users
                      (insert u (mkUser name None "passenger" 0 (Some (5 # 1)) 0 0
                                        (Some now)))
                      db))) as ->.
    { subst r. unfold start. by rewrite Hnew. }
    simpl. repeat (split; [done |]).
    unfold start, get_user. simpl. rewrite lookup_insert_eq. simpl.
    repeat split.
    rewrite (alter_as_insert _ _ _ _ (lookup_insert_eq _ _ _)). simpl.
    by rewrite insert_insert_eq.
  - intros usr Hu r. subst r. unfold start. rewrite Hu.
    unfold get_user in Hu.
    destruct (negb (is_blocked usr =? 0));
      [| destruct (training_completed usr =? 0)];
      simpl; by rewrite (alter_as_insert _ _ _ usr Hu).
Qed.

(** User 7 is unknown to the database of the examples; user 1 is known,
    and only the stamp of the row changes. *)
Lemma start_writes_once_witness :
  (start 50 7 "Greta" db_searching).1 = TrainingOffer ∧
  users (start 50 7 "Greta" db_searching).2 !! 7 =
    Some (mkUser "Greta" None "passenger" 0 (Some (5 # 1)) 0 0 (Some 50)) ∧
  users (start 60 1 "Anna" db_searching).2 !! 1 =
    Some (mkUser "Anna" (Some "token-1") "passenger" 0 (Some (5 # 1)) 0 1 (Some 60)) ∧
  trips (start 60 1 "Anna" db_searching).2 = trips db_searching.
Proof.
  pose proof (start_writes_once 50 51 7 "Greta" "G" db_searching) as [H _].
  specialize (H eq_refl). destruct H as (H1 & H2 & _).
  pose proof (proj2 (start_writes_once 60 61 1 "Anna" "A" db_searching)
                (mkUser "Anna" (Some "token-1") "passenger" 0 (Some (5 # 1)) 0 1 (Some 0))
                eq_refl) as (K1 & _ & _ & K2 & _).
  split; [exact H1 |]. split; [| split].
  - rewrite H2. by rewrite lookup_insert_eq.
  - rewrite K1. by rewrite lookup_insert_eq.
  - exact K2.
Defined.

(** X24.  A telephone number that passes the check is reported as saved
    whatever the cipher does with it, and what is stored is the cipher's
    output.  An order by that user afterwards is refused for want of a
    telephone exactly when that output is empty: always so when the
    cipher could not be built, although the user was told the number was
    saved. *)
Theorem order_needs_stored_token D C cipher now now' u text tid to s db usr :
  validate_phone (strip text) = true →
  users db !! u = Some usr →
  nonempty (trip_from s) = true → to ≠ "" →
  let r := set_phone_complete cipher now u text db in
  let token := encrypt_phone cipher (strip text) in
  r.1 = PhoneSaved ∧
  users r.2 !! u = Some (user_set_phone token usr) ∧
  ((trip_confirm D C now' u tid to s r.2).1.1 = TripNeedsPhone ↔ token = "") ∧
  (cipher = None → (trip_confirm D C now' u tid to s r.2).1.1 = TripNeedsPhone).
Proof.
  intros Hv Hu Hs Hto r token.
  assert (r = (PhoneSaved,
               log_action now u "set_phone"
                 (set_users (alter (user_set_phone token) u) db))) as ->.
  { subst r token. unfold set_phone_complete. by rewrite Hv. }
  assert (users (log_action now u "set_phone"
                   (set_users (alter (user_set_phone token) u) db)) !! u =
          Some (user_set_phone token usr)) as Hu'.
  { simpl. by rewrite lookup_alter_eq, Hu. }
  assert ((trip_confirm D C now' u tid to s
             (log_action now u "set_phone"
                (set_users (alter (user_set_phone token) u) db))).1.1 = TripNeedsPhone
          ↔ token = "") as Hiff.
  { unfold trip_confirm, get_user. rewrite Hs.
    rewrite (proj2 (String.eqb_neq to "") Hto). cbv beta iota. simpl negb. simpl orb.
    cbv beta iota. rewrite Hu'. cbv beta iota.
    change (phone (user_set_phone token usr)) with (Some token).
    unfold nonempty at 1.
    destruct (String.eqb_spec token "") as [->|Hne]; simpl.
    - done.
    - destruct (Pricing.calculate_price D C (default "" (trip_from s)) to "economy").
      simpl. split; [done | by intros]. }
  split; [done |]. split; [exact Hu' |]. split; [exact Hiff |].
  intros ->. apply Hiff. done.
Qed.

(** The number is typed with spaces, brackets and hyphens; the cipher
    could not be built. *)
Lemma order_needs_stored_token_witness :
  let s := mkSession (Some "Kazan") None None None ∅ None None None in
  let r := set_phone_complete None 70 1 " +7 (999) 123-45-67 " db_searching in
  r.1 = PhoneSaved ∧
  (trip_confirm (Pricing.one_road 360) Pricing.one_class 71 1 "t2" "Samara" s r.2).1.1 =
    TripNeedsPhone.
Proof.
  intros s r.
  pose proof (order_needs_stored_token (Pricing.one_road 360) Pricing.one_class None
                70 71 1 " +7 (999) 123-45-67 " "t2" "Samara" s db_searching
                (mkUser "Anna" (Some "token-1") "passenger" 0 (Some (5 # 1)) 0 1 (Some 0))
                ltac:(vm_compute; reflexivity) eq_refl eq_refl ltac:(done)) as H.
  destruct H as (H1 & _ & _ & H4).
  split; [exact H1 | exact (H4 eq_refl)].
Defined.

Lemma admin_users_spec db u :
  u ∈ admin_users db ↔ ∃ usr, users db !! u = Some usr ∧ role usr = "admin".
Proof.
  unfold admin_users. rewrite list_elem_of_omap. split.
  - intros [[k usr] [Hin Heq]]. simpl in Heq.
    destruct (String.eqb_spec (role usr) "admin") as [Hr|Hr]; [| done].
    simplify_eq. exists usr. split; [| done].
    by apply elem_of_map_to_list in Hin.
  - intros (usr & Hu & Hr). exists (u, usr). split.
    + by apply elem_of_map_to_list.
    + simpl. rewrite Hr. done.
Qed.

Lemma load_fold (l : list Z) : ∀ acc,
  let out := foldl (λ acc u, if bool_decide (u ∈ acc) then acc else acc ++ [u]) acc l in
  (∀ u, u ∈ out ↔ u ∈ acc ∨ u ∈ l) ∧
  (∃ added, out = acc ++ added) ∧
  (NoDup acc → NoDup out).
Proof.
  induction l as [|x l IH]; intros acc; simpl.
  - split; [| split].
    + intros u. rewrite elem_of_nil. tauto.
    + exists []. by rewrite app_nil_r.
    + done.
  - destruct (decide (x ∈ acc)) as [Hin|Hout].
    + rewrite bool_decide_eq_true_2 by done.
      destruct (IH acc) as (Hm & Hp & Hn).
      split; [| split; [exact Hp | exact Hn]].
      intros u. rewrite Hm, elem_of_cons.
      split; [tauto |]. intros [H | [-> | H]]; tauto.
    + rewrite bool_decide_eq_false_2 by done.
      destruct (IH (acc ++ [x])) as (Hm & [added Hp] & Hn).
      split; [| split].
      * intros u. rewrite Hm, elem_of_app, !elem_of_cons, elem_of_nil. tauto.
      * exists (x :: added). rewrite Hp. by rewrite <- app_assoc.
      * intros Hnd. apply Hn. apply NoDup_app. split; [done |]. split.
        -- intros y Hy Hy'. apply list_elem_of_singleton in Hy'. by subst.
        -- apply NoDup_singleton.
Qed.

(** X25.  The operators after start-up: [main] extends the configured
    list by the users whose role is ['admin'], so a user is an operator
    exactly when configured or stored with that role; the configured
    entries keep their places at the head of the list, and a list without
    repetitions stays so. *)
Theorem load_admins_members ADMINS db :
  (∀ u, is_admin u (load_admins ADMINS db) = true ↔
        u ∈ ADMINS ∨ ∃ usr, users db !! u = Some usr ∧ role usr = "admin") ∧
  (∃ added, load_admins ADMINS db = ADMINS ++ added) ∧
  (NoDup ADMINS → NoDup (load_admins ADMINS db)).
Proof.
  unfold load_admins.
  destruct (load_fold (admin_users db) ADMINS) as (Hm & Hp & Hn).
  split; [| split; [exact Hp | exact Hn]].
  intros u. unfold is_admin. rewrite bool_decide_eq_true, Hm, admin_users_spec. done.
Qed.

(** Nobody is configured; user 9 of the examples is stored with the role
    ['admin']. *)
Lemma load_admins_members_witness :
  is_admin 9 (load_admins [] db_searching) = true ∧ NoDup (load_admins [] db_searching).
Proof.
  destruct (load_admins_members [] db_searching) as (Hm & _ & Hn).
  split.
  - apply Hm. right.
    exists (mkUser "Olga" None "admin" 0 (Some (5 # 1)) 0 1 (Some 0)). by vm_compute.
  - apply Hn. apply NoDup_nil_2.
Defined.

End AccountFacts.
(** ** All the handlers together *)

Section SystemFacts.
Import Store Sql Handlers Registry Lifecycle Account System Ratings Examples.

Lemma user_kept_refl x : user_kept x x.
Proof. unfold user_kept. tauto. Qed.

Lemma table_kept_refl m : table_kept m m.
Proof. intros u. destruct (m !! u); [apply user_kept_refl | done]. Qed.

Lemma table_kept_trans m1 m2 m3 :
  table_kept m1 m2 → table_kept m2 m3 → table_kept m1 m3.
Proof.
  intros H12 H23 u. specialize (H12 u). specialize (H23 u).
  destruct (m1 !! u) as [a|], (m2 !! u) as [b|], (m3 !! u) as [c|]; try done.
  - destruct H12 as (Hn & Hb & Hr), H23 as (Hn' & Hb' & Hr').
    split; [congruence |]. split; [congruence |].
    destruct Hr' as [Hr' | Hr']; [rewrite Hr'; exact Hr | by right].
  - destruct H12 as (Hb & Hr), H23 as (Hn' & Hb' & Hr').
    split; [congruence |].
    destruct Hr' as [Hr' | Hr']; [rewrite Hr'; exact Hr | by right].
Qed.

Lemma table_kept_alter f u m : (∀ x, user_kept x (f x)) → table_kept m (alter f u m).
Proof.
  intros Hf v. destruct (decide (u = v)) as [<-|Hne].
  - rewrite lookup_alter_eq. destruct (m !! u); simpl; [apply Hf | done].
  - rewrite lookup_alter_ne by done. destruct (m !! v); [apply user_kept_refl | done].
Qed.

Lemma table_kept_insert u x m :
  m !! u = None → user_fresh x → table_kept m (<[u := x]> m).
Proof.
  intros Hnone Hx v. destruct (decide (u = v)) as [<-|Hne].
  - by rewrite lookup_insert_eq, Hnone.
  - rewrite lookup_insert_ne by done. destruct (m !! v); [apply user_kept_refl | done].
Qed.

Ltac kept :=
  lazymatch goal with
  | |- table_kept ?m ?m => apply table_kept_refl
  | |- table_kept ?m (alter ?f ?u ?m') =>
      apply (table_kept_trans m m');
      [kept | apply table_kept_alter; intros x; unfold user_kept; simpl; tauto]
  end.

Lemma step_users_kept D C A op db : users_kept db (step D C A op db).
Proof.
  unfold users_kept. destruct op; simpl.
  - unfold trip_confirm, insert_trip. repeat case_match; simpl; kept.
  - unfold accept_trip, update_trip_accepted. repeat case_match; simpl; kept.
  - unfold start_trip. repeat case_match; simpl; kept.
  - unfold stop_waiting. repeat case_match; simpl; kept.
  - unfold complete_trip, incr_trips_count. repeat case_match; simpl; kept.
  - unfold save_review, update_rating, insert_review. repeat case_match; simpl; kept.
  - unfold driver_experience, insert_driver. repeat case_match; simpl; kept.
  - unfold admin_verify_driver. case_match; simpl; kept.
  - unfold admin_reject_driver. case_match; simpl; kept.
  - unfold driver_online, driver_offline. kept.
  - unfold driver_online, driver_offline. kept.
  - unfold skip_training. simpl. kept.
Qed.

Lemma handle_users_kept D C A cipher e db : users_kept db (handle D C A cipher e db).
Proof.
  destruct e as [op | now u name | now u text]; simpl.
  - apply step_users_kept.
  - unfold users_kept, start, get_user.
    destruct (users db !! u) as [usr|] eqn:E.
    + repeat case_match; simpl; kept.
    + simpl. apply table_kept_insert; [done |]. unfold user_fresh. simpl. tauto.
  - unfold users_kept, set_phone_complete. case_match; simpl; kept.
Qed.

Lemma handle_all_users_kept D C A cipher evs : ∀ db,
  users_kept db (handle_all D C A cipher evs db).
Proof.
  unfold handle_all.
  induction evs as [|e evs IH]; intros db; simpl.
  - apply table_kept_refl.
  - eapply table_kept_trans; [apply (handle_users_kept D C A cipher e) | apply IH].
Qed.

(** X26.  What the handlers never do to a user's row.  Whatever updates
    are handled, a user of the table stays in it with the same name and
    the same blocking flag, and the role is the old one or ['driver']; a
    user added on the way is not blocked and is a passenger or a driver.
    So no handler blocks, unblocks or deletes a user or makes one an
    operator: in every state reached from the empty database [/start]
    never gives the "account blocked" answer, and loading the operators
    at start-up adds nobody to the configured list. *)
Theorem users_kept_by_handlers D C A cipher evs db :
  let db' := handle_all D C A cipher evs db in
  users_kept db db' ∧
  (db = empty_db →
   (∀ now u name, (start now u name db').1 ≠ Blocked) ∧
   (∀ ADMINS, load_admins ADMINS db' = ADMINS)).
Proof.
  intros db'. pose proof (handle_all_users_kept D C A cipher evs db) as Hk.
  fold db' in Hk. split; [exact Hk |].
  intros ->.
  assert (∀ u usr, users db' !! u = Some usr → user_fresh usr) as Hfresh.
  { intros u usr Hu. specialize (Hk u). simpl in Hk.
    rewrite lookup_empty, Hu in Hk. exact Hk. }
  split.
  - intros now u name. unfold start, get_user.
    destruct (users db' !! u) as [usr|] eqn:E; [| done].
    destruct (Hfresh u usr E) as [Hb _]. rewrite Hb. simpl.
    by destruct (training_completed usr =? 0).
  - intros ADMINS. unfold load_admins.
    assert (admin_users db' = []) as ->; [| done].
    apply elem_of_nil_inv. intros u Hin.
    apply admin_users_spec in Hin as (usr & Hu & Hr).
    destruct (Hfresh u usr Hu) as [_ [Hp | Hd]]; congruence.
Qed.

(** A new user arrives, skips the training, gives a telephone number and
    applies as a driver: the row is there, not blocked, and the role has
    become ['driver']. *)
Lemma users_kept_by_handlers_witness :
  let s := mkSession None None None None ∅ (Some "Greta Berg") (Some "Volvo") (Some "A123BB") in
  let db' := handle_all ∅ ∅ [9] None
               [Start 1 7 "Greta"; Handler (OpSkipTraining 7);
                SetPhone 2 7 "89991234567"; Handler (OpRegister 3 7 (Some 4) s)]
               empty_db in
  (role <$> users db' !! 7) = Some "driver" ∧
  (start 9 7 "Greta" db').1 ≠ Blocked ∧
  load_admins [9] db' = [9].
Proof.
  intros s db'.
  pose proof (users_kept_by_handlers ∅ ∅ [9] None
                [Start 1 7 "Greta"; Handler (OpSkipTraining 7);
                 SetPhone 2 7 "89991234567"; Handler (OpRegister 3 7 (Some 4) s)]
                empty_db) as [_ H].
  destruct (H eq_refl) as [Hs Hl].
  split; [by vm_compute |]. split; [apply Hs | apply Hl].
Defined.

Lemma sum_ratings_bounds rs :
  Forall (λ r, 1 ≤ review_rating r ≤ 5) rs →
  Z.of_nat (length rs) ≤ sum_ratings rs ≤ 5 * Z.of_nat (length rs).
Proof.
  induction 1 as [|r rs Hr _ IH]; simpl; [lia |].
  lia.
Qed.

Lemma mean_in_range rs :
  rs ≠ [] → Forall (λ r, 1 ≤ review_rating r ≤ 5) rs → in_range (mean rs).
Proof.
  intros Hne Hall. pose proof (sum_ratings_bounds rs Hall) as Hsum.
  assert (Z.pos (Pos.of_nat (length rs)) = Z.of_nat (length rs)) as Hlen.
  { rewrite <- positive_nat_Z. rewrite Nat2Pos.id; [done |]. by destruct rs. }
  unfold in_range, mean. rewrite !Qred_correct.
  unfold Qle. simpl. rewrite Hlen. lia.
Qed.

Lemma table_ok_alter f u m :
  (∀ x, rating (f x) = rating x) → table_ok m → table_ok (alter f u m).
Proof.
  intros Hf Hok v usr q Hl Hq. destruct (decide (u = v)) as [<-|Hne].
  - rewrite lookup_alter_eq in Hl.
    destruct (m !! u) as [old|] eqn:E; simpl in Hl; [| done].
    injection Hl as <-. rewrite Hf in Hq. by apply (Hok u old).
  - rewrite lookup_alter_ne in Hl by done. by apply (Hok v usr).
Qed.

Lemma table_ok_set_rating r u m :
  (∀ q, r = Some q → in_range q) → table_ok m → table_ok (alter (user_set_rating r) u m).
Proof.
  intros Hr Hok v usr q Hl Hq. destruct (decide (u = v)) as [<-|Hne].
  - rewrite lookup_alter_eq in Hl.
    destruct (m !! u) as [old|] eqn:E; simpl in Hl; [| done].
    injection Hl as <-. simpl in Hq. by apply Hr.
  - rewrite lookup_alter_ne in Hl by done. by apply (Hok v usr).
Qed.

Lemma table_ok_insert u x m :
  (∀ q, rating x = Some q → in_range q) → table_ok m → table_ok (<[u := x]> m).
Proof.
  intros Hx Hok v usr q Hl Hq. destruct (decide (u = v)) as [<-|Hne].
  - rewrite lookup_insert_eq in Hl. injection Hl as <-. by apply Hx.
  - rewrite lookup_insert_ne in Hl by done. by apply (Hok v usr).
Qed.

Lemma table_ok_empty : table_ok ∅.
Proof. intros u usr q Hl. by rewrite lookup_empty in Hl. Qed.

Lemma avg_rating_in_range to db q :
  reviews_ok db → avg_rating to db = Some q → in_range q.
Proof.
  unfold reviews_ok, avg_rating. intros Hok.
  destruct to as [u|]; [| done].
  destruct (reviews_to u (reviews db)) as [|r rs] eqn:E; [done |].
  intros [= <-]. apply mean_in_range; [done |].
  rewrite <- E. unfold reviews_to.
  apply Forall_forall. intros x Hx. apply list_elem_of_filter in Hx as [_ Hx].
  revert x Hx. by apply Forall_forall.
Qed.

Lemma insert_review_ok now tid rater ratee r text db :
  reviews_ok db → reviews_ok (insert_review now tid rater ratee r text db).
Proof.
  unfold insert_review, reviews_ok. intros Hok.
  destruct ratee as [to|]; [| done].
  case_match eqn:E; [| done]. simpl.
  apply Forall_app. split; [done |].
  apply Forall_singleton. simpl.
  apply andb_true_iff in E as [E E5]. apply andb_true_iff in E as [_ E1]. lia.
Qed.

Ltac rated :=
  lazymatch goal with
  | |- table_ok (alter ?f ?u ?m') =>
      apply table_ok_alter; [intros x; reflexivity | rated]
  | |- _ => assumption
  end.

Lemma step_ratings D C A op db :
  ratings_ok db ∧ reviews_ok db →
  ratings_ok (step D C A op db) ∧ reviews_ok (step D C A op db).
Proof.
  unfold ratings_ok. intros [Hu Hr]. destruct op; simpl.
  - unfold trip_confirm, insert_trip. repeat case_match; simpl; split; done.
  - unfold accept_trip, update_trip_accepted. repeat case_match; simpl; split; done.
  - unfold start_trip. repeat case_match; simpl; split; done.
  - unfold stop_waiting. repeat case_match; simpl; split; done.
  - unfold complete_trip, incr_trips_count.
    repeat case_match; simpl; (split; [rated | done]).
  - unfold save_review. repeat case_match; simpl; try (split; done).
    match goal with
    | |- context [insert_review ?now ?tid ?u ?to ?r ?text db] =>
        pose proof (insert_review_ok now tid u to r text db Hr) as Hr';
        assert (users (insert_review now tid u to r text db) = users db) as Hsame
          by (unfold insert_review; by repeat case_match);
        generalize dependent (insert_review now tid u to r text db)
    end.
    intros db1 Hr1 Hsame. unfold update_rating.
    destruct (review_addressee user_id t) as [to|]; [| by rewrite Hsame].
    simpl. split; [| done].
    apply table_ok_set_rating; [| by rewrite Hsame].
    intros q Hq. by apply (avg_rating_in_range (Some to) db1).
  - unfold driver_experience, insert_driver.
    repeat case_match; simpl; (split; [rated | done]).
  - unfold admin_verify_driver. case_match; simpl; split; done.
  - unfold admin_reject_driver. case_match; simpl; split; done.
  - done.
  - done.
  - unfold skip_training. simpl. split; [rated | done].
Qed.

Lemma handle_ratings D C A cipher e db :
  ratings_ok db ∧ reviews_ok db →
  ratings_ok (handle D C A cipher e db) ∧ reviews_ok (handle D C A cipher e db).
Proof.
  destruct e as [op | now u name | now u text]; simpl.
  - apply step_ratings.
  - unfold ratings_ok, start, get_user. intros [Hu Hr].
    destruct (users db !! u) as [usr|] eqn:E.
    + repeat case_match; simpl; (split; [rated | done]).
    + simpl. split; [| done].
      apply table_ok_insert; [| done]. simpl. intros q [= <-]. by vm_compute.
  - unfold ratings_ok, set_phone_complete. intros [Hu Hr].
    case_match; simpl; (split; [try rated; done | done]).
Qed.

(** X27.  Ratings stay in range.  If every stored review carries a rating
    from 1 to 5 and every user's rating is NULL or lies between 1 and 5,
    the same holds after any updates handled: a review is stored only
    when the CHECK of the table lets its rating through, and the only
    statement that writes a user's rating writes the mean of the reviews
    addressed to that user.  It holds in particular in every state
    reached from the empty database. *)
Theorem ratings_stay_in_range D C A cipher evs db :
  (ratings_ok db → reviews_ok db →
   ratings_ok (handle_all D C A cipher evs db) ∧
   reviews_ok (handle_all D C A cipher evs db)) ∧
  ratings_ok (handle_all D C A cipher evs empty_db).
Proof.
  assert (∀ d, ratings_ok d ∧ reviews_ok d →
               ratings_ok (handle_all D C A cipher evs d) ∧
               reviews_ok (handle_all D C A cipher evs d)) as Hall.
  { unfold handle_all. induction evs as [|e evs IH]; intros d Hd; simpl; [done |].
    apply IH. by apply handle_ratings. }
  split; [intros Hu Hr; by apply Hall |].
  apply Hall. split; [apply table_ok_empty | apply Forall_nil_2].
Qed.

(** Passenger 1 gives driver 2 three stars for the completed trip. *)
Lemma ratings_stay_in_range_witness :
  let db' := handle_all ∅ ∅ [9] None [Handler (OpReview 5 1 "ok" (reviewing 3))]
               db_completed in
  ratings_ok db' ∧ (rating <$> users db' !! 2) = Some (Some (3 # 1)).
Proof.
  intros db'. split; [| by vm_compute].
  apply (proj1 (ratings_stay_in_range ∅ ∅ [9] None
                  [Handler (OpReview 5 1 "ok" (reviewing 3))] db_completed)).
  - unfold ratings_ok. simpl. unfold some_users.
    repeat (apply table_ok_insert; [simpl; intros q [= <-]; by vm_compute |]).
    apply table_ok_empty.
  - apply Forall_nil_2.
Defined.

Lemma omap_fst_sublist {A} (f : Z * A → option Z) (l : list (Z * A)) :
  (∀ x y, f x = Some y → y = x.1) → omap f l `sublist_of` l.*1.
Proof.
  intros Hf. induction l as [|x l IH]; simpl; [constructor |].
  destruct (f x) as [y|] eqn:E.
  - rewrite (Hf x y E). by constructor.
  - by constructor.
Qed.

Lemma offered_spec db u :
  u ∈ offered_drivers db →
  ∃ d, drivers db !! u = Some d ∧ verified d = 1 ∧ online_status d = 1 ∧
       is_Some (users db !! u).
Proof.
  unfold offered_drivers. intros Hin.
  apply subseteq_take in Hin.
  apply list_elem_of_omap in Hin as ([k d] & Hkd & Hsome).
  apply elem_of_map_to_list in Hkd. simpl in Hsome.
  destruct (eligible d && bool_decide (is_Some (users db !! k))) eqn:E; [| done].
  injection Hsome as <-.
  apply andb_true_iff in E as [E Hu]. apply bool_decide_eq_true in Hu.
  unfold eligible in E. apply andb_true_iff in E as [Ev Eo].
  exists d. repeat split; [done | lia | lia | done].
Qed.

(** X28.  Whom a new trip is offered to: at most ten drivers, no driver
    twice, each with [verified = 1] and [online_status = 1] and a row in
    [users].  As no handler sets [online_status], a database in which no
    driver is online stays so whatever is handled, and a new trip is then
    offered to nobody. *)
Theorem offers_only_online_verified D C A cipher evs db :
  (∀ u, u ∈ offered_drivers db →
        ∃ d, drivers db !! u = Some d ∧ verified d = 1 ∧ online_status d = 1 ∧
             is_Some (users db !! u)) ∧
  (length (offered_drivers db) ≤ 10)%nat ∧
  NoDup (offered_drivers db) ∧
  (all_offline db → offered_drivers (handle_all D C A cipher evs db) = []).
Proof.
  split; [apply offered_spec |]. split; [| split].
  - unfold offered_drivers. rewrite length_take. lia.
  - unfold offered_drivers.
    eapply sublist_NoDup; [| apply sublist_take].
    eapply sublist_NoDup; [apply (NoDup_fst_map_to_list (drivers db)) |].
    apply omap_fst_sublist. intros [k d] y. simpl.
    case_match; [by intros [= <-] | done].
  - intros Hoff.
    assert (all_offline (handle_all D C A cipher evs db)) as Hoff'.
    { unfold handle_all. revert db Hoff.
      induction evs as [|e evs IH]; intros db Hoff; simpl; [done |].
      apply IH. by apply handle_drivers_offline. }
    apply elem_of_nil_inv. intros u Hin.
    apply offered_spec in Hin as (d & Hd & _ & Hon & _).
    specialize (Hoff' u d Hd). lia.
Qed.

(** Driver 2 is verified and online and is offered the trip; in the
    database of the examples, where both drivers are offline, nobody is,
    also after driver 3 was verified again. *)
Lemma offers_only_online_verified_witness :
  offered_drivers db_online = [2] ∧
  offered_drivers (handle_all ∅ ∅ [9] None [Handler (OpVerify 5 9 3)] db_searching) = [].
Proof.
  split; [by vm_compute |].
  apply (offers_only_online_verified ∅ ∅ [9] None [Handler (OpVerify 5 9 3)] db_searching).
  intros id d. unfold db_searching, db_with, some_drivers. simpl.
  intros Hl. apply lookup_insert_Some in Hl as [[_ <-] | [_ Hl]]; [done |].
  apply lookup_singleton_Some in Hl as [_ <-]. done.
Defined.

End SystemFacts.
(** ** Text: characters, cleaning, telephone numbers *)

Section TextFacts.
Import Phone Text.

Lemma concat_cons (x : string) (l : list string) :
  String.concat "" (x :: l) = String.append x (String.concat "" l).
Proof.
  destruct l as [|y l]; simpl; [| done].
  symmetry. apply append_empty.
Qed.

Lemma characters_nil s : characters s = [] → s = "".
Proof.
  destruct s as [|c rest]; [done |]. simpl.
  destruct (characters rest) as [|ch tl]; [done |]. by destruct (continues ch).
Qed.

Lemma concat_characters s : String.concat "" (characters s) = s.
Proof.
  induction s as [|c rest IH]; [done |].
  cbn [characters].
  destruct (characters rest) as [|ch tl] eqn:E.
  - apply characters_nil in E. by subst.
  - destruct (continues ch).
    + rewrite concat_cons. rewrite concat_cons in IH. by rewrite <- IH.
    + rewrite concat_cons. by rewrite IH.
Qed.

Lemma starts_whole ch : starts ch = true → whole ch = true.
Proof. unfold starts. by intros [H _]%andb_true_iff. Qed.

Lemma starts_well_formed l : Forall (λ x, starts x = true) l → well_formed l.
Proof.
  destruct 1 as [|ch tl Hch Htl]; simpl; [done |].
  split; [by apply starts_whole | done].
Qed.

Lemma characters_well_formed s : well_formed (characters s).
Proof.
  induction s as [|c rest IH]; [done |].
  cbn [characters].
  destruct (characters rest) as [|ch tl].
  - simpl. done.
  - destruct IH as [Hch Htl].
    destruct (continues ch) eqn:Ec.
    + split; [| done]. simpl.
      destruct ch as [|c' r']; [done |]. simpl in *. by rewrite Ec, Hch.
    + split; [done |]. constructor; [| done].
      unfold starts. by rewrite Hch, Ec.
Qed.

Lemma filter_starts (p : string → bool) l :
  Forall (λ x, starts x = true) l → Forall (λ x, starts x = true) (List.filter p l).
Proof.
  induction 1 as [|ch tl Hch _ IH]; simpl; [done |].
  destruct (p ch); [by constructor | done].
Qed.

Lemma filter_well_formed (p : string → bool) l :
  well_formed l → well_formed (List.filter p l).
Proof.
  destruct l as [|ch tl]; [done |]. intros [Hch Htl]. simpl.
  destruct (p ch).
  - split; [done | by apply filter_starts].
  - by apply starts_well_formed, filter_starts.
Qed.

(** The characters of continuation bytes followed by whole characters. *)
Lemma characters_continued r : ∀ X tl,
  continuation_only r = true → characters X = tl →
  Forall (λ x, starts x = true) tl →
  characters (String.append r X) = match r with "" => tl | _ => r :: tl end.
Proof.
  induction r as [|c r IH]; intros X tl Hr HX Htl; [done |].
  simpl in Hr. apply andb_true_iff in Hr as [Hc Hr].
  simpl. rewrite (IH X tl Hr HX Htl).
  destruct r as [|c' r'].
  - destruct Htl as [|ch tl Hch Htl]; [done |].
    unfold starts in Hch. apply andb_true_iff in Hch as [_ Hch].
    apply negb_true_iff in Hch. by rewrite Hch.
  - simpl in Hr. apply andb_true_iff in Hr as [Hc' _]. simpl. by rewrite Hc'.
Qed.

Lemma characters_concat l : well_formed l → characters (String.concat "" l) = l.
Proof.
  assert (∀ tl, Forall (λ x, starts x = true) tl →
                characters (String.concat "" tl) = tl) as Hstarts.
  { induction 1 as [|ch tl Hch Htl IH]; [done |].
    rewrite concat_cons.
    destruct ch as [|c r]; [done |].
    unfold starts in Hch. apply andb_true_iff in Hch as [Hw Hn]. simpl in Hw.
    change (String.append (String c r) (String.concat "" tl))
      with (String c (String.append r (String.concat "" tl))).
    cbn [characters]. rewrite (characters_continued r _ tl Hw IH Htl).
    destruct r as [|c' r'].
    - destruct Htl as [|ch' tl' Hch' Htl']; [done |].
      unfold starts in Hch'. apply andb_true_iff in Hch' as [_ Hch'].
      apply negb_true_iff in Hch'. by rewrite Hch'.
    - simpl in Hw. apply andb_true_iff in Hw as [Hc' _]. simpl. by rewrite Hc'. }
  destruct l as [|ch tl]; [done |]. intros [Hw Htl].
  rewrite concat_cons.
  destruct ch as [|c r]; [done |]. simpl in Hw.
  change (String.append (String c r) (String.concat "" tl))
    with (String c (String.append r (String.concat "" tl))).
  cbn [characters]. rewrite (characters_continued r _ tl Hw (Hstarts tl Htl) Htl).
  destruct r as [|c' r'].
  - destruct Htl as [|ch' tl' Hch' Htl']; [done |].
    unfold starts in Hch'. apply andb_true_iff in Hch' as [_ Hch'].
    apply negb_true_iff in Hch'. by rewrite Hch'.
  - simpl in Hw. apply andb_true_iff in Hw as [Hc' _]. simpl. by rewrite Hc'.
Qed.

Lemma filter_twice {A} (p : A → bool) l : List.filter p (List.filter p l) = List.filter p l.
Proof.
  induction l as [|x l IH]; simpl; [done |].
  destruct (p x) eqn:E; simpl; [by rewrite E, IH | done].
Qed.

Lemma filter_all {A} (p : A → bool) l : Forall (λ x, p x = true) l → List.filter p l = l.
Proof. induction 1 as [|x l Hx _ IH]; simpl; [done |]. by rewrite Hx, IH. Qed.

Lemma filter_holds {A} (p : A → bool) l : Forall (λ x, p x = true) (List.filter p l).
Proof.
  induction l as [|x l IH]; simpl; [done |].
  destruct (p x) eqn:E; [by constructor | done].
Qed.

(** X29.  [sanitize_input] removes the control characters and nothing
    else: the characters of the result are the characters of the text
    that are no control characters, in their order; no control character
    is left; cleaning a second time changes nothing; and a text without
    control characters is returned as it is. *)
Theorem sanitize_input_removes_controls text :
  let clean := λ ch, negb (is_control (code_point ch)) in
  characters (sanitize_input text) = List.filter clean (characters text) ∧
  Forall (λ ch, is_control (code_point ch) = false) (characters (sanitize_input text)) ∧
  sanitize_input (sanitize_input text) = sanitize_input text ∧
  (Forall (λ ch, is_control (code_point ch) = false) (characters text) →
   sanitize_input text = text).
Proof.
  intros clean.
  assert (characters (sanitize_input text) = List.filter clean (characters text)) as Hc.
  { unfold sanitize_input. apply characters_concat.
    apply filter_well_formed, characters_well_formed. }
  split; [exact Hc |]. split; [| split].
  - rewrite Hc. eapply Forall_impl; [apply (filter_holds clean) |].
    intros ch Hch. unfold clean in Hch. by apply negb_true_iff in Hch.
  - unfold sanitize_input at 1. fold clean. rewrite Hc. by rewrite filter_twice.
  - intros Hall. unfold sanitize_input. fold clean.
    rewrite filter_all; [apply concat_characters |].
    eapply Forall_impl; [exact Hall |].
    intros ch Hch. unfold clean. by rewrite Hch.
Qed.

(** A name typed with a tab, a line break and the control character
    U+0085 (bytes C2 85) loses the three. *)
Lemma sanitize_input_removes_controls_witness :
  sanitize_input ("Iv" ++ String (ascii_of_nat 9) ("an" ++ String (ascii_of_nat 194)
                     (String (ascii_of_nat 133) (String (ascii_of_nat 10) "Petrov"))))
    = "IvanPetrov" ∧
  sanitize_input "Ivan Petrov" = "Ivan Petrov".
Proof.
  split; [by vm_compute |].
  apply (sanitize_input_removes_controls "Ivan Petrov").
  vm_compute. repeat constructor.
Defined.

Lemma ten_digits_spec l :
  ten_digits l = true → length l = 10%nat ∧ Forall (λ d, digit d = true) l.
Proof.
  unfold ten_digits. intros [Hlen Hall]%andb_true_iff.
  split; [by apply Nat.eqb_eq |].
  apply Forall_forall. intros d Hd. apply list_elem_of_In in Hd.
  revert d Hd. by apply forallb_forall.
Qed.

(** X30.  A telephone number that passes [validate_phone] is, once the
    white space, hyphens and brackets are taken out, either [8] and ten
    digits or [+7] and ten digits.  [format_phone] lays out the first
    form as [+7 (ddd) ddd-dd-dd]; the second form has twelve characters,
    not eleven, and is returned exactly as it was typed. *)
Theorem valid_phone_formats phone :
  validate_phone phone = true →
  ∃ ds, length ds = 10%nat ∧ Forall (λ d, digit d = true) ds ∧
    ((cleaned phone = "8" :: ds ∧
      format_phone phone =
        String.append "+7 ("
          (String.append (String.concat "" (take 3 ds))
             (String.append ") "
                (String.append (String.concat "" (take 3 (drop 3 ds)))
                   (String.append "-"
                      (String.append (String.concat "" (take 2 (drop 6 ds)))
                         (String.append "-"
                            (String.concat "" (take 2 (drop 8 ds)))))))))) ∨
     (cleaned phone = "+" :: "7" :: ds ∧ format_phone phone = phone)).
Proof.
  unfold validate_phone, format_phone.
  destruct (cleaned phone) as [|first rest] eqn:Ec; [done |].
  destruct (String.eqb_spec first "8") as [-> | Hn8].
  - intros [Hlen Hall]%ten_digits_spec. exists rest.
    split; [done |]. split; [done |]. left. split; [done |].
    simpl length. rewrite Hlen. reflexivity.
  - destruct (String.eqb_spec first "+") as [-> | Hnp]; [| done].
    destruct rest as [|second ds]; [done |].
    intros [H7 Hd]%andb_true_iff. apply String.eqb_eq in H7 as ->.
    apply ten_digits_spec in Hd as [Hlen Hall]. exists ds.
    split; [done |]. split; [done |]. right. split; [done |].
    simpl length. by rewrite Hlen.
Qed.

(** The same number typed in the two forms. *)
Lemma valid_phone_formats_witness :
  format_phone "8 (999) 123-45-67" = "+7 (999) 123-45-67" ∧
  format_phone "+7 999 123-45-67" = "+7 999 123-45-67".
Proof.
  split; [by vm_compute |].
  destruct (valid_phone_formats "+7 999 123-45-67" ltac:(vm_compute; reflexivity))
    as (ds & _ & _ & [[Hc _] | [_ Hf]]).
  - vm_compute in Hc. discriminate Hc.
  - exact Hf.
Defined.

End TextFacts.
